(** * Evidence & Argumentation Engine: a shallow embedding and its properties

    The development follows the three TypeScript sources of the engine:
    - [evidence-extractor.ts]  (class [EvidenceExtractor]),
    - [argument-miner.ts]      (class [ArgumentMiner]),
    - [context-builder.ts]     (class [ContextBuilder], the risk aggregator).

    JavaScript strings are sequences of code units; the model uses Rocq
    strings, i.e. code units in the range 0..255 (the Latin-1 block), and
    treats character classes, case mapping and white space as ECMAScript
    does on that range.

    JavaScript numbers that are always finite are modelled by exact
    rationals [Q].  The quotients the engine compares with a literal
    threshold are quotients of two set sizes: IEEE division rounds them
    correctly and monotonically, so [n / d > 0.3] holds in doubles exactly
    when it holds in [Q] (for sizes below 2^50), and [n / n] is exactly 1.
    The one computation that can leave the finite numbers ([Math.log] in
    [calculateComplexity]) uses [jsnum], which adds the two infinities and
    NaN.

    Identifiers and time stamps ([crypto.randomUUID], [new Date]), the file
    store and the version-control commands are parameters of the model. *)

From Stdlib Require Import String Ascii List ZArith QArith Lia Lqa Bool Arith.
From Stdlib Require Import Permutation Sorted.
From stdpp Require Import gmap strings.
Import ListNotations.

Local Open Scope string_scope.

(** ** The JavaScript runtime pieces the engine relies on *)

Module JS.

(** *** Code units and character classes *)

Definition code (c : ascii) : nat := nat_of_ascii c.

Definition between (lo hi : nat) (c : ascii) : bool :=
  (lo <=? code c)%nat && (code c <=? hi)%nat.

Definition is_char (x c : ascii) : bool := Ascii.eqb x c.

(** [\d], [\w] and [\s] of a non-unicode regular expression. *)
Definition is_digit (c : ascii) : bool := between 48 57 c.
Definition is_upper (c : ascii) : bool := between 65 90 c.
Definition is_lower (c : ascii) : bool := between 97 122 c.
Definition is_word (c : ascii) : bool :=
  is_digit c || is_upper c || is_lower c || (code c =? 95)%nat.
Definition is_space (c : ascii) : bool :=
  between 9 13 c || (code c =? 32)%nat || (code c =? 160)%nat.

(** [String.prototype.toLowerCase] on one code unit: A-Z and the Latin-1
    capitals U+00C0..U+00DE (without the multiplication sign U+00D7). *)
Definition lower_char (c : ascii) : ascii :=
  if is_upper c || (between 192 222 c && negb (code c =? 215)%nat)
  then ascii_of_nat (code c + 32) else c.

(** [Canonicalize] of a case-insensitive, non-unicode regular expression:
    upper-casing, kept when the result is a single code unit.  U+00B5 and
    U+00FF upper-case outside the modelled range to characters nothing else
    maps to, so leaving them unchanged preserves every equality. *)
Definition canonicalize (c : ascii) : ascii :=
  if is_lower c || (between 224 254 c && negb (code c =? 247)%nat)
  then ascii_of_nat (code c - 32) else c.

Definition is_char_i (x c : ascii) : bool :=
  Ascii.eqb (canonicalize x) (canonicalize c).

(** *** Strings *)

Definition chars (s : string) : list ascii := list_ascii_of_string s.
Definition str (l : list ascii) : string := string_of_list_ascii l.

Definition toLowerCase (s : string) : string := str (map lower_char (chars s)).

Fixpoint drop_space (l : list ascii) : list ascii :=
  match l with
  | c :: l' => if is_space c then drop_space l' else l
  | [] => []
  end.

(** [String.prototype.trim] *)
Definition trim (s : string) : string :=
  str (rev (drop_space (rev (drop_space (chars s))))).

Fixpoint starts_with (p l : list ascii) : bool :=
  match p, l with
  | [], _ => true
  | x :: p', c :: l' => Ascii.eqb x c && starts_with p' l'
  | _ :: _, [] => false
  end.

Fixpoint includes_from (p l : list ascii) : bool :=
  starts_with p l ||
  match l with
  | [] => false
  | _ :: l' => includes_from p l'
  end.

(** [s.includes(sub)] *)
Definition includes (s sub : string) : bool := includes_from (chars sub) (chars s).

(** [s.substring(0, n)] *)
Definition substring0 (n : nat) (s : string) : string := str (firstn n (chars s)).

(** *** Regular expressions

    A backtracking matcher in continuation-passing style, after the
    ECMAScript pattern semantics: alternatives are tried left to right, a
    greedy quantifier tries one more iteration before the continuation, a
    lazy one the continuation first, and an iteration of a satisfied
    quantifier that consumes nothing is rejected. *)

Inductive regex : Type :=
| REmpty
| RChar (p : ascii -> bool)
| RSeq (r1 r2 : regex)
| RAlt (r1 r2 : regex)
| RRep (lo : nat) (hi : option nat) (greedy : bool) (r : regex)
| RGroup (i : nat) (r : regex)
| RWordB.

(** Matcher state: the input already passed (most recent first), the input
    left, and the captures made so far. *)
Record mstate := MState {
  pre : list ascii;
  rest : list ascii;
  caps : list (nat * string)
}.

Definition consumed (st st' : mstate) : string :=
  str (firstn (List.length (rest st) - List.length (rest st')) (rest st)).

Definition word_before (st : mstate) : bool :=
  match pre st with c :: _ => is_word c | [] => false end.
Definition word_after (st : mstate) : bool :=
  match rest st with c :: _ => is_word c | [] => false end.

Fixpoint repeat_matcher {A : Type}
    (m : mstate -> (mstate -> option A) -> option A)
    (fuel lo : nat) (hi : option nat) (greedy : bool)
    (st : mstate) (k : mstate -> option A) : option A :=
  match fuel with
  | O => None
  | S fuel' =>
      match hi with
      | Some O => k st
      | _ =>
          let d := fun st' : mstate =>
            if (lo =? 0)%nat && (List.length (rest st') =? List.length (rest st))%nat
            then None
            else repeat_matcher m fuel' (Nat.pred lo) (option_map Nat.pred hi) greedy st' k in
          if (lo =? 0)%nat then
            if greedy then
              match m st d with Some x => Some x | None => k st end
            else
              match k st with Some x => Some x | None => m st d end
          else m st d
      end
  end.

Fixpoint rmatch {A : Type} (r : regex) (st : mstate)
    (k : mstate -> option A) : option A :=
  match r with
  | REmpty => k st
  | RChar p =>
      match rest st with
      | c :: s' => if p c then k (MState (c :: pre st) s' (caps st)) else None
      | [] => None
      end
  | RSeq r1 r2 => rmatch r1 st (fun st' => rmatch r2 st' k)
  | RAlt r1 r2 =>
      match rmatch r1 st k with
      | Some x => Some x
      | None => rmatch r2 st k
      end
  | RRep lo hi greedy r' =>
      repeat_matcher (fun s k' => rmatch r' s k')
        (lo + List.length (rest st) + 1) lo hi greedy st k
  | RGroup i r' =>
      rmatch r' st (fun st' =>
        k (MState (pre st') (rest st') ((i, consumed st st') :: caps st')))
  | RWordB => if xorb (word_before st) (word_after st) then k st else None
  end.

(** One match: where it starts, what it matched ([m[0]]), its groups
    ([m[i]], absent when the group took no part) and where it ends. *)
Record rmatch_result := MatchResult {
  m_index : nat;
  m_text : string;
  m_caps : list (nat * string);
  m_end : mstate
}.

Fixpoint assoc (i : nat) (l : list (nat * string)) : option string :=
  match l with
  | [] => None
  | (j, s) :: l' => if (i =? j)%nat then Some s else assoc i l'
  end.

Definition group (i : nat) (m : rmatch_result) : option string := assoc i (m_caps m).

(** The match that starts exactly at the current position, if any. *)
Definition match_here (r : regex) (p s : list ascii) : option rmatch_result :=
  let st := MState p s [] in
  match rmatch r st Some with
  | Some st' => Some (MatchResult (List.length p) (consumed st st') (caps st') st')
  | None => None
  end.

(** [RegExp.prototype.exec]: the leftmost match at or after the position. *)
Fixpoint exec_from (r : regex) (p s : list ascii) : option rmatch_result :=
  match match_here r p s with
  | Some m => Some m
  | None =>
      match s with
      | [] => None
      | c :: s' => exec_from r (c :: p) s'
      end
  end.

(** [s.match(r)] for [r] without the [g] flag, and [r.test(s)] for a
    regular expression whose [lastIndex] is 0. *)
Definition match_first (r : regex) (s : string) : option rmatch_result :=
  exec_from r [] (chars s).

Definition test (r : regex) (s : string) : bool :=
  match match_first r s with Some _ => true | None => false end.

(** [s.matchAll(r)] and [s.match(r)] for [r] with the [g] flag: successive
    matches, each search resuming where the previous match ended (one code
    unit further after an empty match). *)
Fixpoint match_all_from (fuel : nat) (r : regex) (p s : list ascii)
    : list rmatch_result :=
  match fuel with
  | O => []
  | S fuel' =>
      match exec_from r p s with
      | None => []
      | Some m =>
          let e := m_end m in
          if (List.length (pre e) =? m_index m)%nat then
            match rest e with
            | [] => [m]
            | c :: s' => m :: match_all_from fuel' r (c :: pre e) s'
            end
          else m :: match_all_from fuel' r (pre e) (rest e)
      end
  end.

Definition match_all (r : regex) (s : string) : list rmatch_result :=
  match_all_from (S (String.length s)) r [] (chars s).

(** [(s.match(r) || []).length] for [r] with the [g] flag. *)
Definition count_matches (r : regex) (s : string) : nat :=
  List.length (match_all r s).

Definition is_nil (l : list ascii) : bool :=
  match l with [] => true | _ => false end.

(** [s.split(r)] for a separator without capture groups: [seg] holds the
    code units since the last split point, most recent first. *)
Fixpoint split_from (fuel : nat) (r : regex) (p seg s : list ascii)
    : list string :=
  match fuel with
  | O => []
  | S fuel' =>
      match s with
      | [] => [str (rev seg)]
      | c :: s' =>
          match match_here r p s with
          | Some m =>
              let e := m_end m in
              if (List.length (rest e) =? List.length s)%nat && is_nil seg
              then split_from fuel' r (c :: p) (c :: seg) s'
              else str (rev seg) :: split_from fuel' r (pre e) [] (rest e)
          | None => split_from fuel' r (c :: p) (c :: seg) s'
          end
      end
  end.

Definition split (r : regex) (s : string) : list string :=
  match chars s with
  | [] => if test r s then [] else [s]
  | l => split_from (2 * List.length l + 2) r [] [] l
  end.

(** Pattern building blocks, so that a pattern reads like its source. *)
Definition any_char : ascii -> bool := fun _ => true.
Definition not_char (x : ascii) : ascii -> bool := fun c => negb (is_char x c).
Definition star (r : regex) : regex := RRep 0 None true r.
Definition plus (r : regex) : regex := RRep 1 None true r.
Definition opt (r : regex) : regex := RRep 0 (Some 1) true r.
Definition lazy_star (r : regex) : regex := RRep 0 None false r.

Fixpoint seq (l : list regex) : regex :=
  match l with
  | [] => REmpty
  | [r] => r
  | r :: l' => RSeq r (seq l')
  end.

Fixpoint alt (l : list regex) : regex :=
  match l with
  | [] => RChar (fun _ => false)
  | [r] => r
  | r :: l' => RAlt r (alt l')
  end.

(** [s.split(c)] for a separator of one code unit. *)
Fixpoint split_char_from (x : ascii) (seg s : list ascii) : list string :=
  match s with
  | [] => [str (rev seg)]
  | c :: s' =>
      if is_char x c then str (rev seg) :: split_char_from x [] s'
      else split_char_from x (c :: seg) s'
  end.

Definition split_char (x : ascii) (s : string) : list string :=
  split_char_from x [] (chars s).

Definition startsWith (s p : string) : bool := starts_with (chars p) (chars s).

(** Truthiness of a string: the empty string is the one falsy string. *)
Definition truthy (s : string) : bool :=
  match s with EmptyString => false | _ => true end.

(** *** Numbers

    [jsnum] is used where a computation can leave the finite numbers;
    finite values are exact rationals. *)
Inductive jsnum : Type :=
| Fin (q : Q)
| PosInf
| NegInf
| NaN.

Definition Qsign (q : Q) : comparison := (0 ?= q)%Q.

Definition jneg (x : jsnum) : jsnum :=
  match x with
  | Fin q => Fin (- q)
  | PosInf => NegInf
  | NegInf => PosInf
  | NaN => NaN
  end.

Definition jadd (x y : jsnum) : jsnum :=
  match x, y with
  | NaN, _ | _, NaN => NaN
  | Fin a, Fin b => Fin (a + b)
  | PosInf, NegInf | NegInf, PosInf => NaN
  | PosInf, _ | _, PosInf => PosInf
  | NegInf, _ | _, NegInf => NegInf
  end.

Definition jsub (x y : jsnum) : jsnum := jadd x (jneg y).

Definition jmul (x y : jsnum) : jsnum :=
  match x, y with
  | NaN, _ | _, NaN => NaN
  | Fin a, Fin b => Fin (a * b)
  | Fin a, PosInf | PosInf, Fin a =>
      match Qsign a with Lt => PosInf | Gt => NegInf | Eq => NaN end
  | Fin a, NegInf | NegInf, Fin a =>
      match Qsign a with Lt => NegInf | Gt => PosInf | Eq => NaN end
  | PosInf, PosInf | NegInf, NegInf => PosInf
  | PosInf, NegInf | NegInf, PosInf => NegInf
  end.

(** [x / y] for two finite numbers with [x >= 0]. *)
Definition jdiv_nonneg (x y : Q) : jsnum :=
  match Qsign y with
  | Eq => match Qsign x with Eq => NaN | _ => PosInf end
  | _ => Fin (x / y)
  end.

(** [Math.max(x, y)] *)
Definition jmax (x y : jsnum) : jsnum :=
  match x, y with
  | NaN, _ | _, NaN => NaN
  | PosInf, _ | _, PosInf => PosInf
  | NegInf, z | z, NegInf => z
  | Fin a, Fin b => if Qle_bool a b then Fin b else Fin a
  end.

(** [Math.log(x)], given its values [ln] on the positive finite numbers
    (an implementation-approximated function in ECMAScript, finite there):
    the logarithm of zero is minus infinity, that of a negative number is
    NaN. *)
Definition Math_log (ln : Q -> Q) (x : jsnum) : jsnum :=
  match x with
  | Fin q =>
      match Qsign q with
      | Lt => Fin (ln q)
      | Eq => NegInf
      | Gt => NaN
      end
  | PosInf => PosInf
  | NegInf => NaN
  | NaN => NaN
  end.

Definition is_finite (x : jsnum) : bool :=
  match x with Fin _ => true | _ => false end.

(** [Math.min] and [Math.max] on finite numbers. *)
Definition Math_min (a b : Q) : Q := if Qle_bool a b then a else b.
Definition Math_max (a b : Q) : Q := if Qle_bool a b then b else a.
Definition Qnat (n : nat) : Q := inject_Z (Z.of_nat n).

(** [a > b] on finite numbers. *)
Definition Qgt_bool (a b : Q) : bool := negb (Qle_bool a b).

(** Frequent pattern atoms. *)
Definition sp : regex := RChar is_space.
Definition wd : regex := RChar is_word.
Definition dg : regex := RChar is_digit.

(** A literal, and a literal under the [i] flag. *)
Definition lit (s : string) : regex := seq (map (fun x => RChar (is_char x)) (chars s)).
Definition lit_i (s : string) : regex := seq (map (fun x => RChar (is_char_i x)) (chars s)).

(** [l.join(c)] for a separator of one code unit. *)
Fixpoint join_char (x : ascii) (l : list string) : string :=
  match l with
  | [] => EmptyString
  | [s] => s
  | s :: l' => s ++ String x (join_char x l')
  end.

End JS.

Import JS.

(** ** evidence-extractor.ts *)

Module EvidenceExtractor.

Record ComplexityMetrics := {
  cyclomatic : Q;
  cognitive : nat;
  halstead_difficulty : Q;
  halstead_volume : nat;
  halstead_effort : Q;
  maintainabilityIndex : jsnum
}.

Record SizeMetrics := {
  loc : nat;
  sloc : nat;
  files : nat;
  functions : nat;
  classes : nat
}.

Record QualityMetrics := {
  duplicateLines : nat;
  duplicateBlocks : nat;
  codeSmells : nat;
  technicalDebt : nat
}.

Record DependencyMetrics := {
  direct : nat;
  transitive : nat;
  outdated : nat;
  vulnerable : nat;
  licenses : list string
}.

Record CodeMetrics := {
  complexity : ComplexityMetrics;
  size : SizeMetrics;
  quality : QualityMetrics;
  dependencies : DependencyMetrics
}.

Inductive Impact : Type := high | medium | low | none.

Record PerformanceImpact := {
  cpuImpact : Impact;
  memoryImpact : Impact;
  ioImpact : Impact;
  estimatedLatencyChange : nat;
  scalabilityIssues : list string;
  optimizationOpportunities : list string
}.

Inductive Outcome : Type := merged | rejected | reverted.

Record HistoricalMatch := {
  commit : string;
  date : option string;
  author : option string;
  similarity : Q;
  outcome : Outcome;
  issues : list string;
  performanceImpact : option Q
}.

Inductive ChangeType : Type := added | modified | deleted.

Record Change := {
  file : string;
  type : ChangeType;
  additions : nat;
  deletions : nat;
  patches : list string
}.

(** The per-file counts of [analyzeCodeComplexity]. *)
Record Analysis := {
  a_cyclomatic : nat;
  a_cognitive : nat;
  a_functions : nat
}.

Record AntiPatterns := {
  nestedLoops : nat;
  synchronousIO : nat;
  largeArrayOperations : nat;
  nPlusOneQueries : bool
}.

(** The patterns of the source, one definition per literal. *)
Definition re_functions : regex :=                 (* /function\s+\w+|=>\s*{|\w+\s*:\s*function/g *)
  alt [seq [lit "function"; plus sp; plus wd];
       seq [lit "=>"; star sp; lit "{"];
       seq [plus wd; star sp; lit ":"; star sp; lit "function"]].
Definition re_conditions : regex :=                (* /if\s*\(|else\s+if|\?\s*:/g *)
  alt [seq [lit "if"; star sp; lit "("];
       seq [lit "else"; plus sp; lit "if"];
       seq [lit "?"; star sp; lit ":"]].
Definition re_loops : regex :=                     (* /for\s*\(|while\s*\(|do\s*{/g *)
  alt [seq [lit "for"; star sp; lit "("];
       seq [lit "while"; star sp; lit "("];
       seq [lit "do"; star sp; lit "{"]].
Definition re_switches : regex :=                  (* /switch\s*\(|case\s+/g *)
  alt [seq [lit "switch"; star sp; lit "("];
       seq [lit "case"; plus sp]].
Definition re_size_functions : regex :=            (* /function\s+\w+|=>\s*{/g *)
  alt [seq [lit "function"; plus sp; plus wd];
       seq [lit "=>"; star sp; lit "{"]].
Definition re_classes : regex :=                   (* /class\s+\w+/g *)
  seq [lit "class"; plus sp; plus wd].
Definition re_long_function : regex :=             (* /function[\s\S]{500,}}/g *)
  seq [lit "function"; RRep 500 None true (RChar any_char); lit "}"].
Definition re_deep_nesting : regex :=              (* /{\s*{\s*{\s*{/g *)
  seq [lit "{"; star sp; lit "{"; star sp; lit "{"; star sp; lit "{"].
Definition re_nested_loops : regex :=              (* /for\s*\([^)]*\)\s*{[^}]*for\s*\(/g *)
  seq [lit "for"; star sp; lit "("; star (RChar (not_char ")")); lit ")";
       star sp; lit "{"; star (RChar (not_char "}")); lit "for"; star sp; lit "("].
Definition re_sync_io : regex :=                   (* /readFileSync|execSync|writeFileSync/g *)
  alt [lit "readFileSync"; lit "execSync"; lit "writeFileSync"].
Definition re_array_ops : regex :=                 (* /\.map\s*\([^)]*\)\s*\.filter\s*\([^)]*\)\s*\.map/g *)
  seq [lit ".map"; star sp; lit "("; star (RChar (not_char ")")); lit ")";
       star sp; lit ".filter"; star sp; lit "("; star (RChar (not_char ")")); lit ")";
       star sp; lit ".map"].
Definition re_n_plus_one : regex :=                (* /for\s*\([^)]*\)\s*{[^}]*await\s+\w+\.query/g *)
  seq [lit "for"; star sp; lit "("; star (RChar (not_char ")")); lit ")";
       star sp; lit "{"; star (RChar (not_char "}")); lit "await"; plus sp;
       plus wd; lit ".query"].
Definition re_token : regex :=                     (* /\b\w+\b/g *)
  seq [RWordB; plus wd; RWordB].
Definition re_issue : regex :=                     (* /#(\d+)/g *)
  seq [lit "#"; RGroup 1 (plus dg)].

Definition analyzeCodeComplexity (content : string) : Analysis :=
  let functions := count_matches re_functions content in
  let conditions := count_matches re_conditions content in
  let loops := count_matches re_loops content in
  let switches := count_matches re_switches content in
  {| a_cyclomatic := conditions + loops + switches + 1;
     a_cognitive := conditions + loops * 2 + switches * 3;
     a_functions := functions |}.

Definition detectPerformanceAntiPatterns (content : string) : AntiPatterns :=
  {| nestedLoops := count_matches re_nested_loops content;
     synchronousIO := count_matches re_sync_io content;
     largeArrayOperations := count_matches re_array_ops content;
     nPlusOneQueries := test re_n_plus_one content |}.

(** The set of tokens of a diff: [new Set(diff.match(/\b\w+\b/g) || [])]. *)
Definition tokens (diff : string) : gset string :=
  list_to_set (map m_text (match_all re_token diff)).

Definition calculateDiffSimilarity (diff1 diff2 : string) : Q :=
  let tokens1 := tokens diff1 in
  let tokens2 := tokens diff2 in
  let intersection : gset string := filter (fun x => x ∈ tokens2) tokens1 in
  let union : gset string := tokens1 ∪ tokens2 in
  if (0 <? base.size union)%nat
  then (Z.of_nat (base.size intersection) # Pos.of_nat (base.size union))%Q
  else 0%Q.

(** The version-control commands run through [execSync], each with its
    output, or [None] when the command fails (throws):
    - [gitLog]: [git log --format="%H|%ai|%an|%s" -n 1000];
    - [gitShow hash]: [git show hash] with an empty format;
    - [gitBranchContains hash]: [git branch --contains hash | grep -E "(main|master)"];
    - [gitLogGrepRevert short]: [git log --grep="Revert.*short" --format="%H"];
    - [gitMessage hash]: [git log -1 --format="%B" hash]. *)
Record Git := {
  gitLog : option string;
  gitShow : string -> option string;
  gitBranchContains : string -> option string;
  gitLogGrepRevert : string -> option string;
  gitMessage : string -> option string
}.

(** The collaborators of the extractor: the repository file store (a read
    that fails is [None]), the dependency names of the manifest, the values
    of [Math.log] and the version-control commands. *)
Section Extractor.

Variable readFile : string -> option string.
Variable manifestDependencies : option (list string).
Variable ln : Q -> Q.
Variable git : Git.

Definition getFileContent (filepath : string) : string :=
  match readFile filepath with
  | Some content => content
  | None => EmptyString
  end.

Definition calculateComplexity (files : list string) : ComplexityMetrics :=
  let '(totalCyclomatic, totalCognitive, totalFunctions) :=
    fold_left (fun '(cy, cg, fn) file =>
      let analysis := analyzeCodeComplexity (getFileContent file) in
      (cy + a_cyclomatic analysis, cg + a_cognitive analysis, fn + a_functions analysis))
      files (0, 0, 0) in
  let avgCyclomatic : Q :=
    if (0 <? totalFunctions)%nat then (Qnat totalCyclomatic / Qnat totalFunctions)%Q else 0%Q in
  let maintainabilityIndex :=
    jmax (Fin 0)
      (jsub (jsub (Fin 171) (jmul (Fin 5.2) (Math_log ln (Fin avgCyclomatic))))
            (Fin (0.23 * Qnat totalCognitive)%Q)) in
  {| cyclomatic := avgCyclomatic;
     cognitive := totalCognitive;
     halstead_difficulty := (avgCyclomatic * 2)%Q;
     halstead_volume := totalFunctions * 10;
     halstead_effort := (avgCyclomatic * Qnat totalFunctions * 10)%Q;
     maintainabilityIndex := maintainabilityIndex |}.

Definition calculateSize (files : list string) : SizeMetrics :=
  let '(totalLoc, totalSloc, totalFunctions, totalClasses) :=
    fold_left (fun '(l, sl, fn, cl) file =>
      let content := getFileContent file in
      let lines := split_char "010" content in
      (l + List.length lines,
       sl + List.length (List.filter (fun line =>
              truthy (trim line) && negb (startsWith (trim line) "//")) lines),
       fn + count_matches re_size_functions content,
       cl + count_matches re_classes content))
      files (0, 0, 0, 0) in
  {| loc := totalLoc;
     sloc := totalSloc;
     files := List.length files;
     functions := totalFunctions;
     classes := totalClasses |}.

Definition analyzeQuality (files : list string) : QualityMetrics :=
  let '(codeSmells, technicalDebt) :=
    fold_left (fun '(smells, debt) file =>
      let content := getFileContent file in
      let longFunctions := count_matches re_long_function content in
      let deepNesting := count_matches re_deep_nesting content in
      (smells + longFunctions + deepNesting,
       debt + longFunctions * 30 + deepNesting * 15))
      files (0, 0) in
  {| duplicateLines := 0;
     duplicateBlocks := 0;
     codeSmells := codeSmells;
     technicalDebt := technicalDebt |}.

(** [manifestDependencies] is [Object.keys(pkg.dependencies)] of a manifest
    that was read and parsed, [None] when there is none. *)
Definition analyzeDependencies (files : list string) : DependencyMetrics :=
  let dependencies : gset string :=
    match manifestDependencies with
    | Some keys => list_to_set keys
    | None => ∅
    end in
  {| direct := base.size dependencies;
     transitive := base.size dependencies * 3;
     outdated := 0;
     vulnerable := 0;
     licenses := [] |}.

Definition extractCodeMetrics (files : list string) : CodeMetrics :=
  {| complexity := calculateComplexity files;
     size := calculateSize files;
     quality := analyzeQuality files;
     dependencies := analyzeDependencies files |}.

(** The loop body of [analyzePerformanceImpact] on one change. *)
Definition analyzeChange (acc : PerformanceImpact) (change : Change) : PerformanceImpact :=
  match type change with
  | deleted => acc
  | _ =>
      let content := getFileContent (file change) in
      let antiPatterns := detectPerformanceAntiPatterns content in
      let acc :=
        if (2 <? nestedLoops antiPatterns)%nat then
          {| cpuImpact := high;
             memoryImpact := memoryImpact acc;
             ioImpact := ioImpact acc;
             estimatedLatencyChange := estimatedLatencyChange acc + 50 * nestedLoops antiPatterns;
             scalabilityIssues :=
               scalabilityIssues acc ++ ["Deeply nested loops in " ++ file change];
             optimizationOpportunities := optimizationOpportunities acc |}
        else acc in
      let acc :=
        if (0 <? synchronousIO antiPatterns)%nat then
          {| cpuImpact := cpuImpact acc;
             memoryImpact := memoryImpact acc;
             ioImpact := high;
             estimatedLatencyChange := estimatedLatencyChange acc + 100 * synchronousIO antiPatterns;
             scalabilityIssues := scalabilityIssues acc;
             optimizationOpportunities :=
               optimizationOpportunities acc ++ ["Convert sync I/O to async in " ++ file change] |}
        else acc in
      let acc :=
        if (0 <? largeArrayOperations antiPatterns)%nat then
          {| cpuImpact := cpuImpact acc;
             memoryImpact := medium;
             ioImpact := ioImpact acc;
             estimatedLatencyChange := estimatedLatencyChange acc;
             scalabilityIssues := scalabilityIssues acc;
             optimizationOpportunities :=
               optimizationOpportunities acc ++ ["Optimize array operations in " ++ file change] |}
        else acc in
      if nPlusOneQueries antiPatterns then
        {| cpuImpact := cpuImpact acc;
           memoryImpact := memoryImpact acc;
           ioImpact := high;
           estimatedLatencyChange := estimatedLatencyChange acc + 200;
           scalabilityIssues :=
             scalabilityIssues acc ++ ["N+1 query pattern detected in " ++ file change];
           optimizationOpportunities := optimizationOpportunities acc |}
      else acc
  end.

Definition analyzePerformanceImpact (changes : list Change) : PerformanceImpact :=
  fold_left analyzeChange changes
    {| cpuImpact := none;
       memoryImpact := none;
       ioImpact := none;
       estimatedLatencyChange := 0;
       scalabilityIssues := [];
       optimizationOpportunities := [] |}.

Definition getCommitOutcome (hash : string) : Outcome :=
  match gitBranchContains git hash with
  | None => merged
  | Some out =>
      if negb (truthy (trim out)) then rejected
      else
        match gitLogGrepRevert git (substring0 7 hash) with
        | None => merged
        | Some out' => if truthy (trim out') then reverted else merged
        end
  end.

Definition getRelatedIssues (hash : string) : list string :=
  match gitMessage git hash with
  | None => []
  | Some message => map (fun m => default EmptyString (group 1 m)) (match_all re_issue message)
  end.

Definition getHistoricalPerformanceImpact (hash : string) : option Q := None.

(** The loop of [findSimilarChanges] over the lines of the log.  A failing
    [git show] throws: the [catch] ends the scan and the matches pushed so
    far are kept.  ([diffHash], computed before the loop, is never read.) *)
Fixpoint scanCommits (diff : string) (commits : list string) : list HistoricalMatch :=
  match commits with
  | [] => []
  | commitLine :: commits' =>
      let parts := split_char "|" commitLine in
      let hash := nth 0 parts EmptyString in
      match gitShow git hash with
      | None => []
      | Some out =>
          let commitDiff := trim out in
          let similarity := calculateDiffSimilarity diff commitDiff in
          if Qgt_bool similarity 0.3%Q then
            {| commit := hash;
               date := nth_error parts 1;
               author := nth_error parts 2;
               similarity := similarity;
               outcome := getCommitOutcome hash;
               issues := getRelatedIssues hash;
               performanceImpact := getHistoricalPerformanceImpact hash |}
            :: scanCommits diff commits'
          else scanCommits diff commits'
      end
  end.

(** [matches] when the [try] block is left. *)
Definition candidateMatches (diff : string) : list HistoricalMatch :=
  match gitLog git with
  | None => []
  | Some out => scanCommits diff (split_char "010" (trim out))
  end.

(** [matches.sort((a, b) => b.similarity - a.similarity)]: a stable sort,
    larger similarity first. *)
Fixpoint insertBySimilarity (m : HistoricalMatch) (l : list HistoricalMatch)
    : list HistoricalMatch :=
  match l with
  | [] => [m]
  | y :: l' =>
      if Qle_bool (similarity y) (similarity m) then m :: l
      else y :: insertBySimilarity m l'
  end.

Definition sortBySimilarity (l : list HistoricalMatch) : list HistoricalMatch :=
  fold_right insertBySimilarity [] l.

Definition findSimilarChanges (diff : string) : list HistoricalMatch :=
  firstn 10 (sortBySimilarity (candidateMatches diff)).

End Extractor.

(** *** The security scanner *)

Inductive Severity : Type := sev_critical | sev_high | sev_medium | sev_low.

Record SecurityIssue := {
  issue_id : string;
  severity : Severity;
  issue_type : string;
  issue_file : string;
  line : nat;
  column : nat;
  message : string;
  cwe : option string;
  owasp : option string;
  fixSuggestion : option string
}.

(** A row of the [patterns] table of [scanSecurityIssues]. *)
Record Pattern := {
  p_name : string;
  p_severity : Severity;
  p_regex : regex;
  p_message : string;
  p_cwe : string;
  p_owasp : string
}.

Definition dquote : ascii := "034"%char.
Definition interpolation : regex :=                (* \$\{[^}]+\} *)
  seq [lit_i "${"; plus (RChar (not_char "}")); lit_i "}"].

Definition re_sql : regex :=
  (* /(\$\{[^}]+\}|\x22\s*\+[^+]+\+\s*\x22)\s*(?:WHERE|SELECT|INSERT|UPDATE|DELETE)/gi,
     writing \x22 for the double quote *)
  seq [RGroup 1 (alt [interpolation;
                      seq [RChar (is_char dquote); star sp; lit_i "+";
                           plus (RChar (not_char "+")); lit_i "+"; star sp;
                           RChar (is_char dquote)]]);
       star sp;
       alt [lit_i "WHERE"; lit_i "SELECT"; lit_i "INSERT"; lit_i "UPDATE"; lit_i "DELETE"]].
Definition re_command : regex :=
  (* /(exec|spawn|system)\s*\([^)]*\$\{[^}]+\}/gi *)
  seq [RGroup 1 (alt [lit_i "exec"; lit_i "spawn"; lit_i "system"]); star sp; lit_i "(";
       star (RChar (not_char ")")); interpolation].
Definition re_xss : regex :=
  (* /innerHTML\s*=\s*[^'\x22`]+(\$\{[^}]+\}|user|input|param)/gi *)
  seq [lit_i "innerHTML"; star sp; lit_i "="; star sp;
       plus (RChar (fun c => negb (is_char "'" c || is_char dquote c || is_char "`" c)));
       RGroup 1 (alt [interpolation; lit_i "user"; lit_i "input"; lit_i "param"])].
Definition re_secret : regex :=
  (* /(api[_-]?key|secret|password|token)\s*[:=]\s*[\x22'][^\x22']{8,}/gi *)
  seq [RGroup 1 (alt [seq [lit_i "api"; opt (RChar (fun c => is_char "_" c || is_char "-" c));
                           lit_i "key"];
                      lit_i "secret"; lit_i "password"; lit_i "token"]);
       star sp; RChar (fun c => is_char ":" c || is_char "=" c); star sp;
       RChar (fun c => is_char dquote c || is_char "'" c);
       RRep 8 None true (RChar (fun c => negb (is_char dquote c || is_char "'" c)))].
Definition re_weak_crypto : regex :=               (* /\b(MD5|SHA1|DES|RC4)\b/gi *)
  seq [RWordB; RGroup 1 (alt [lit_i "MD5"; lit_i "SHA1"; lit_i "DES"; lit_i "RC4"]); RWordB].

Definition patterns : list Pattern :=
  [{| p_name := "SQL Injection"; p_severity := sev_critical; p_regex := re_sql;
      p_message := "Potential SQL injection vulnerability";
      p_cwe := "CWE-89"; p_owasp := "A03:2021" |};
   {| p_name := "Command Injection"; p_severity := sev_critical; p_regex := re_command;
      p_message := "Potential command injection vulnerability";
      p_cwe := "CWE-78"; p_owasp := "A03:2021" |};
   {| p_name := "XSS"; p_severity := sev_high; p_regex := re_xss;
      p_message := "Potential XSS vulnerability";
      p_cwe := "CWE-79"; p_owasp := "A03:2021" |};
   {| p_name := "Hardcoded Secret"; p_severity := sev_high; p_regex := re_secret;
      p_message := "Hardcoded secret detected";
      p_cwe := "CWE-798"; p_owasp := "A07:2021" |};
   {| p_name := "Weak Crypto"; p_severity := sev_medium; p_regex := re_weak_crypto;
      p_message := "Weak cryptographic algorithm";
      p_cwe := "CWE-327"; p_owasp := "A02:2021" |}].

Definition suggestions : list (string * string) :=
  [("SQL Injection", "Use parameterized queries or prepared statements");
   ("Command Injection", "Validate and sanitize input, use safe APIs");
   ("XSS", "Use textContent instead of innerHTML, escape user input");
   ("Hardcoded Secret", "Use environment variables or secret management service");
   ("Weak Crypto", "Use strong algorithms like AES-256, SHA-256")].

Fixpoint lookup_suggestion (k : string) (table : list (string * string)) : option string :=
  match table with
  | [] => None
  | (k', v) :: table' => if String.eqb k k' then Some v else lookup_suggestion k table'
  end.

(** [suggestions[vulnerabilityType] || '...'], for the own keys of the
    table. *)
Definition generateFixSuggestion (vulnerabilityType code : string) : string :=
  match lookup_suggestion vulnerabilityType suggestions with
  | Some suggestion => if truthy suggestion then suggestion
                       else "Review and fix the security issue"
  | None => "Review and fix the security issue"
  end.

(** The matches in the order of the three nested loops: by line, then by
    pattern, then by position; [lineNum] counts from 0. *)
Fixpoint lineFindings (lineNum : nat) (lines : list string)
    : list (nat * string * Pattern * rmatch_result) :=
  match lines with
  | [] => []
  | line :: lines' =>
      flat_map (fun pattern =>
                  map (fun m => (lineNum, line, pattern, m))
                      (match_all (p_regex pattern) line))
               patterns
      ++ lineFindings (S lineNum) lines'
  end.

(** [scanSecurityIssues]: one issue per match, the k-th issue pushed taking
    the k-th identifier handed out by [crypto.randomUUID] from [n0] on.
    ([matchAll] works on a copy of the pattern, so every line is searched
    from its start.) *)
Definition scanSecurityIssues (randomUUID : nat -> string) (n0 : nat)
    (code filename : string) : list SecurityIssue :=
  let lines := split_char "010" code in
  imap (fun k '(lineNum, line, pattern, m) =>
          {| issue_id := randomUUID (n0 + k);
             severity := p_severity pattern;
             issue_type := p_name pattern;
             issue_file := filename;
             line := lineNum + 1;
             column := m_index m;
             message := p_message pattern;
             cwe := Some (p_cwe pattern);
             owasp := Some (p_owasp pattern);
             fixSuggestion := Some (generateFixSuggestion (p_name pattern) line) |})
       (lineFindings 0 lines).

End EvidenceExtractor.

(** ** argument-miner.ts *)

Module ArgumentMiner.

Inductive EvidenceType : Type := code | metric | documentation | historical | external.

Record Evidence := {
  ev_type : EvidenceType;
  content : string;
  source : string;
  confidence : Q
}.

Record ToulminArgument := {
  id : string;
  agent : string;
  timestamp : Z;
  claim : string;
  grounds : list string;
  warrant : string;
  backing : list Evidence;
  qualifier : option string;
  rebuttal : option string;
  strength : Q
}.

Inductive NodeType : Type := support | attack | neutral.
Inductive EdgeType : Type := supports | rebuts | undermines | qualifies.

Record ArgumentNode := {
  node_id : string;
  argument : ToulminArgument;
  node_type : NodeType
}.

Record ArgumentEdge := {
  edge_from : string;
  edge_to : string;
  edge_type : EdgeType;
  edge_strength : Q
}.

Record ArgumentGraph := {
  nodes : list ArgumentNode;
  edges : list ArgumentEdge
}.

Record ArgumentMetrics := {
  totalArguments : nat;
  averageStrength : jsnum;
  consensusLevel : Q;
  conflictPoints : list string;
  strongestArguments : list ToulminArgument;
  weakestArguments : list ToulminArgument
}.

(** The miner object: its [arguments] map in insertion order, its [graph],
    and the number of arguments created so far, which indexes the system
    sources ([crypto.randomUUID], [new Date]). *)
Record Miner := {
  arguments : list (string * ToulminArgument);
  graph : ArgumentGraph;
  created : nat
}.

Definition newMiner : Miner :=
  {| arguments := []; graph := {| nodes := []; edges := [] |}; created := 0 |}.

(** [Map.prototype.set]: a present key keeps its place. *)
Fixpoint map_set (k : string) (v : ToulminArgument)
    (m : list (string * ToulminArgument)) : list (string * ToulminArgument) :=
  match m with
  | [] => [(k, v)]
  | (k', v') :: m' =>
      if String.eqb k k' then (k, v) :: m' else (k', v') :: map_set k v m'
  end.

Definition EdgeType_eqb (a b : EdgeType) : bool :=
  match a, b with
  | supports, supports | rebuts, rebuts
  | undermines, undermines | qualifies, qualifies => true
  | _, _ => false
  end.

(** The patterns of the source. *)
Definition colon_or_space : ascii -> bool := fun c => is_char ":" c || is_space c.
Definition line_rest : regex := plus (RChar (not_char "010")).

Definition re_header : regex :=                    (* /#{1,3}\s+\w+/g *)
  seq [RRep 1 (Some 3) true (lit "#"); plus sp; plus wd].
Definition re_blank : regex := lit (str ["010"; "010"]%char).   (* /\n\n/g *)
Definition re_rule : regex :=                      (* /---+/g *)
  seq [lit "--"; plus (lit "-")].
Definition re_claim : regex :=                     (* /claim[:\s]+([^\n]+)/i *)
  seq [lit_i "claim"; plus (RChar colon_or_space); RGroup 1 line_rest].
Definition re_grounds : regex :=                   (* /grounds?[:\s]+([^\n]+)/gi *)
  seq [lit_i "ground"; opt (lit_i "s"); plus (RChar colon_or_space); RGroup 1 line_rest].
Definition re_warrant : regex :=                   (* /warrant[:\s]+([^\n]+)/i *)
  seq [lit_i "warrant"; plus (RChar colon_or_space); RGroup 1 line_rest].
Definition sentence_end : ascii -> bool :=
  fun c => is_char "." c || is_char "!" c || is_char "?" c.
Definition re_sentence : regex :=                  (* /[^.!?]+[.!?]+/g *)
  seq [plus (RChar (fun c => negb (sentence_end c))); plus (RChar sentence_end)].
Definition re_code : regex :=                      (* /`([^`]+)`|```[\s\S]*?```/g *)
  alt [seq [lit "`"; RGroup 1 (plus (RChar (not_char "`"))); lit "`"];
       seq [lit "```"; lazy_star (RChar any_char); lit "```"]].
Definition re_fileReference : regex :=             (* /(?:file|File):?\s*([^\s:]+):(\d+)/g *)
  seq [alt [lit "file"; lit "File"]; opt (lit ":"); star sp;
       RGroup 1 (plus (RChar (fun c => negb (colon_or_space c))));
       lit ":"; RGroup 2 (plus dg)].
Definition re_metric : regex :=                    (* /(\d+(?:\.\d+)?)\s*(%|ms|MB|ops\/sec)/g *)
  seq [RGroup 1 (seq [plus dg; opt (seq [lit "."; plus dg])]); star sp;
       RGroup 2 (alt [lit "%"; lit "ms"; lit "MB"; lit "ops/sec"])].
Definition re_citation : regex :=                  (* /\[([^\]]+)\]\(([^)]+)\)/g *)
  seq [lit "["; RGroup 1 (plus (RChar (not_char "]"))); lit "]";
       lit "("; RGroup 2 (plus (RChar (not_char ")"))); lit ")"].
Definition re_historical : regex :=                (* /(?:commit|Commit)\s+([a-f0-9]{7,40})/g *)
  seq [alt [lit "commit"; lit "Commit"]; plus sp;
       RGroup 1 (RRep 7 (Some 40) true (RChar (fun c => between 97 102 c || is_digit c)))].
Definition re_negativePhrases : regex :=
  (* /should not|must not|avoid|prevent|dangerous|vulnerable|risk/i *)
  alt [lit_i "should not"; lit_i "must not"; lit_i "avoid"; lit_i "prevent";
       lit_i "dangerous"; lit_i "vulnerable"; lit_i "risk"].
Definition re_positivePhrases : regex :=
  (* /should|must|improve|enhance|benefit|secure|safe/i *)
  alt [lit_i "should"; lit_i "must"; lit_i "improve"; lit_i "enhance";
       lit_i "benefit"; lit_i "secure"; lit_i "safe"].
Definition re_spaces : regex := plus sp.           (* /\s+/ *)

Definition group_text (i : nat) (m : rmatch_result) : string := default EmptyString (group i m).

Definition extractEvidence (text : string) : list Evidence :=
  map (fun m =>
         {| ev_type := code;
            content := if truthy (group_text 1 m) then group_text 1 m else m_text m;
            source := "inline";
            confidence := 0.9 |}) (match_all re_code text)
  ++ map (fun m =>
         {| ev_type := code;
            content := group_text 1 m ++ ":" ++ group_text 2 m;
            source := "file";
            confidence := 0.95 |}) (match_all re_fileReference text)
  ++ map (fun m =>
         {| ev_type := metric;
            content := m_text m;
            source := "measurement";
            confidence := 0.85 |}) (match_all re_metric text)
  ++ map (fun m =>
         {| ev_type := external;
            content := group_text 1 m;
            source := group_text 2 m;
            confidence := 0.8 |}) (match_all re_citation text)
  ++ map (fun m =>
         {| ev_type := historical;
            content := group_text 1 m;
            source := "git";
            confidence := 0.9 |}) (match_all re_historical text).

Definition splitIntoSections (output : string) : list string :=
  let markers := [re_header; re_blank; re_rule] in
  fold_left (fun sections marker =>
    flat_map (fun section =>
      List.filter (fun p => (50 <? String.length (trim p))%nat) (split marker section))
      sections)
    markers [output].

Definition classifyArgument (arg : ToulminArgument) : NodeType :=
  if test re_negativePhrases (claim arg) then attack
  else if test re_positivePhrases (claim arg) then support
  else neutral.

Definition calculateSimilarity (text1 text2 : string) : Q :=
  let tokens1 : gset string := list_to_set (split re_spaces (toLowerCase text1)) in
  let tokens2 : gset string := list_to_set (split re_spaces (toLowerCase text2)) in
  let intersection : gset string := filter (fun x => x ∈ tokens2) tokens1 in
  let union : gset string := tokens1 ∪ tokens2 in
  if (0 <? size union)%nat
  then (Z.of_nat (size intersection) # Pos.of_nat (size union))%Q
  else 0%Q.

Definition opposites : list (string * string) :=
  [("approve", "reject"); ("allow", "deny"); ("enable", "disable"); ("include", "exclude")].

Definition areConflicting (arg1 arg2 : ToulminArgument) : bool :=
  existsb (fun '(word1, word2) =>
    (includes (toLowerCase (claim arg1)) word1 && includes (toLowerCase (claim arg2)) word2)
    || (includes (toLowerCase (claim arg1)) word2 && includes (toLowerCase (claim arg2)) word1))
    opposites.

Definition analyzeRelationship (arg1 arg2 : ToulminArgument) : option ArgumentEdge :=
  if includes (claim arg2) (agent arg1)
     || match rebuttal arg2 with
        | Some r => includes r (substring0 20 (claim arg1))
        | None => false
        end
  then Some {| edge_from := id arg2; edge_to := id arg1;
               edge_type := rebuts; edge_strength := 0.8 |}
  else
    let similarity := calculateSimilarity (claim arg1) (claim arg2) in
    if Qgt_bool similarity 0.7%Q
    then Some {| edge_from := id arg1; edge_to := id arg2;
                 edge_type := supports; edge_strength := similarity |}
    else if areConflicting arg1 arg2
    then Some {| edge_from := id arg1; edge_to := id arg2;
                 edge_type := undermines; edge_strength := 0.7 |}
    else None.

(** The edges pushed by the two nested loops over [i < j]. *)
Fixpoint pairEdges (args : list ToulminArgument) : list ArgumentEdge :=
  match args with
  | [] => []
  | arg_i :: later =>
      omap (fun arg_j => analyzeRelationship arg_i arg_j) later ++ pairEdges later
  end.

Definition buildArgumentGraph (args : list ToulminArgument) (this : Miner)
    : ArgumentGraph * Miner :=
  let g :=
    {| nodes := map (fun arg =>
                  {| node_id := id arg; argument := arg; node_type := classifyArgument arg |})
                  args;
       edges := pairEdges args |} in
  (g, {| arguments := arguments this; graph := g; created := created this |}).

Definition typeWeight (t : EvidenceType) : Q :=
  match t with
  | code => 0.9
  | metric => 0.85
  | documentation => 0.7
  | historical => 0.8
  | external => 0.6
  end.

Definition calculateEvidenceQuality (evidence : list Evidence) : Q :=
  match evidence with
  | [] => 0%Q
  | _ =>
      let totalQuality :=
        fold_left (fun sum e => sum + typeWeight (ev_type e) * confidence e)%Q evidence 0%Q in
      Math_min 1%Q (totalQuality / Qnat (List.length evidence))%Q
  end.

Definition calculateArgumentStrength (this : Miner) (arg : ToulminArgument) : Q :=
  let hasGrounds : Q := (if (0 <? List.length (grounds arg))%nat then 0.2 else 0)%Q in
  let groundsQuality : Q := Math_min (Qnat (List.length (grounds arg)) * 0.1)%Q 0.3%Q in
  let hasWarrant : Q := (if truthy (warrant arg) then 0.2 else 0)%Q in
  let hasEvidence : Q := (if (0 <? List.length (backing arg))%nat then 0.1 else 0)%Q in
  let evidenceQuality : Q := (calculateEvidenceQuality (backing arg) * 0.2)%Q in
  let strength : Q :=
    (0 + hasGrounds + groundsQuality + hasWarrant + hasEvidence + evidenceQuality)%Q in
  let strength : Q :=
    match qualifier arg with
    | Some q => if truthy q then (strength + 0.05)%Q else strength
    | None => strength
    end in
  let strength : Q :=
    match rebuttal arg with
    | Some r => if truthy r then (strength + 0.05)%Q else strength
    | None => strength
    end in
  let supportingEdges :=
    List.filter (fun e => String.eqb (edge_to e) (id arg) && EdgeType_eqb (edge_type e) supports)
      (edges (graph this)) in
  let attackingEdges :=
    List.filter (fun e => String.eqb (edge_to e) (id arg)
                          && (EdgeType_eqb (edge_type e) rebuts
                              || EdgeType_eqb (edge_type e) undermines))
      (edges (graph this)) in
  let strength := (strength + Qnat (List.length supportingEdges) * 0.05)%Q in
  let strength := (strength - Qnat (List.length attackingEdges) * 0.05)%Q in
  Math_max 0%Q (Math_min 1%Q strength).

Definition truncate (text : string) (maxLength : nat) : string :=
  if (String.length text <=? maxLength)%nat then text
  else substring0 (maxLength - 3) text ++ "...".

Definition findNode (g : ArgumentGraph) (i : string) : option ArgumentNode :=
  List.find (fun n => String.eqb (node_id n) i) (nodes g).

Definition findConflictPoints (this : Miner) : list string :=
  flat_map (fun edge =>
    if EdgeType_eqb (edge_type edge) rebuts || EdgeType_eqb (edge_type edge) undermines then
      match findNode (graph this) (edge_from edge), findNode (graph this) (edge_to edge) with
      | Some fromNode, Some toNode =>
          [agent (argument fromNode) ++ " vs " ++ agent (argument toNode) ++ ": "
             ++ truncate (claim (argument fromNode)) 30]
      | _, _ => []
      end
    else [])
    (edges (graph this)).

(** The two counters of [calculateConsensusLevel] after its loop. *)
Definition countEdges (es : list ArgumentEdge) : nat * nat :=
  fold_left (fun '(supportCount, conflictCount) edge =>
    if EdgeType_eqb (edge_type edge) supports then (S supportCount, conflictCount)
    else if EdgeType_eqb (edge_type edge) rebuts || EdgeType_eqb (edge_type edge) undermines
    then (supportCount, S conflictCount)
    else (supportCount, conflictCount))
    es (0, 0).

Definition calculateConsensusLevel (this : Miner) : Q :=
  if (List.length (nodes (graph this)) =? 0)%nat then 0%Q
  else
    let '(supportCount, conflictCount) := countEdges (edges (graph this)) in
    let totalEdges := supportCount + conflictCount in
    if (totalEdges =? 0)%nat then 0.5%Q
    else (Z.of_nat supportCount # Pos.of_nat totalEdges)%Q.

Definition with_strength (arg : ToulminArgument) (s : Q) : ToulminArgument :=
  {| id := id arg; agent := agent arg; timestamp := timestamp arg; claim := claim arg;
     grounds := grounds arg; warrant := warrant arg; backing := backing arg;
     qualifier := qualifier arg; rebuttal := rebuttal arg; strength := s |}.

(** [[...allArguments].sort((a, b) => b.strength - a.strength)]: stable,
    stronger first. *)
Fixpoint insertByStrength (a : ToulminArgument) (l : list ToulminArgument)
    : list ToulminArgument :=
  match l with
  | [] => [a]
  | y :: l' =>
      if Qle_bool (strength y) (strength a) then a :: l
      else y :: insertByStrength a l'
  end.

Definition sortByStrength (l : list ToulminArgument) : list ToulminArgument :=
  fold_right insertByStrength [] l.

(** [l.slice(-n)] *)
Definition lastn {A : Type} (n : nat) (l : list A) : list A :=
  skipn (List.length l - n) l.

(** [generateMetrics] stores the computed strength in every argument of
    the map; the graph nodes are modelled by value, their copy of the
    strength is read by no operation of this development. *)
Definition generateMetrics (this : Miner) : ArgumentMetrics * Miner :=
  let updated :=
    map (fun '(k, arg) => (k, with_strength arg (calculateArgumentStrength this arg)))
      (arguments this) in
  let allArguments := map snd updated in
  let this' := {| arguments := updated; graph := graph this; created := created this |} in
  let sortedByStrength := sortByStrength allArguments in
  let conflictPoints := findConflictPoints this' in
  let consensusLevel := calculateConsensusLevel this' in
  ({| totalArguments := List.length allArguments;
      averageStrength :=
        jdiv_nonneg (fold_left (fun sum arg => sum + strength arg)%Q allArguments 0%Q)
                    (Qnat (List.length allArguments));
      consensusLevel := consensusLevel;
      conflictPoints := conflictPoints;
      strongestArguments := firstn 3 sortedByStrength;
      weakestArguments := rev (lastn 3 sortedByStrength) |},
   this').

(** The system sources: the [n]-th identifier and the [n]-th time stamp
    handed out. *)
Section Parser.

Variable randomUUID : nat -> string.
Variable dateNow : nat -> Z.

Definition extractToulminComponents (section agentName : string) (n : nat)
    : option ToulminArgument :=
  let claim :=
    match match_first re_claim section with
    | Some claimMatch => trim (group_text 1 claimMatch)
    | None => EmptyString
    end in
  let grounds := map (fun m => trim (group_text 1 m)) (match_all re_grounds section) in
  let warrant :=
    match match_first re_warrant section with
    | Some warrantMatch => trim (group_text 1 warrantMatch)
    | None => EmptyString
    end in
  let claim :=
    if negb (truthy claim) then
      match match_all re_sentence section with
      | sentence :: _ => trim (m_text sentence)
      | [] => claim
      end
    else claim in
  let backing := extractEvidence section in
  if negb (truthy claim) then None
  else Some {| id := randomUUID n;
               agent := agentName;
               timestamp := dateNow n;
               claim := claim;
               grounds := grounds;
               warrant := warrant;
               backing := backing;
               qualifier := Some EmptyString;
               rebuttal := None;
               strength := 0 |}.

Definition parseAgentOutput (agentName output : string) (this : Miner)
    : list ToulminArgument * Miner :=
  fold_left (fun '(args, this) section =>
    match extractToulminComponents section agentName (created this) with
    | Some arg =>
        ((args ++ [arg])%list,
         {| arguments := map_set (id arg) arg (arguments this);
            graph := graph this;
            created := S (created this) |})
    | None => (args, this)
    end)
    (splitIntoSections output) ([], this).

End Parser.

End ArgumentMiner.

(** ** context-builder.ts: the risk aggregator *)

Module ContextBuilder.

Record SecurityScan := {
  vulnerabilities : nat;
  critical : nat;
  high : nat;
  medium : nat;
  low : nat
}.

Record ChangedFile := {
  filename : string;
  additions : nat;
  deletions : nat;
  changes : nat;
  patch : option string
}.

Inductive RiskLevel : Type := risk_low | risk_medium | risk_high | risk_critical.

Record RiskAssessment := {
  overall : RiskLevel;
  security : Q;
  performance : Q;
  architectural : Q;
  compatibility : Q;
  summary : string
}.

(** The argument object of [calculateRiskAssessment]. *)
Record RiskData := {
  securityScan : option SecurityScan;
  codeMetrics : option EvidenceExtractor.CodeMetrics;
  performanceImpact : option EvidenceExtractor.PerformanceImpact;
  changedFiles : list ChangedFile
}.

Definition impactMap (i : EvidenceExtractor.Impact) : Q :=
  match i with
  | EvidenceExtractor.high => 3
  | EvidenceExtractor.medium => 2
  | EvidenceExtractor.low => 1
  | EvidenceExtractor.none => 0
  end.

Definition level_name (l : RiskLevel) : string :=
  match l with
  | risk_low => "low"
  | risk_medium => "medium"
  | risk_high => "high"
  | risk_critical => "critical"
  end.

(** The level of an averaged score. *)
Definition overallLevel (avgScore : Q) : RiskLevel :=
  if Qle_bool 8 avgScore then risk_critical
  else if Qle_bool 6 avgScore then risk_high
  else if Qle_bool 4 avgScore then risk_medium
  else risk_low.

Definition calculateRiskAssessment (data : RiskData) : RiskAssessment :=
  let securityScore : Q :=
    match securityScan data with
    | Some scan =>
        Math_min 10 (Qnat (critical scan) * 4 + Qnat (high scan) * 2
                     + Qnat (medium scan) * 1 + Qnat (low scan) * 0.5)%Q
    | None => 5%Q
    end in
  let performanceScore : Q :=
    match performanceImpact data with
    | Some impact =>
        (impactMap (EvidenceExtractor.cpuImpact impact)
         + impactMap (EvidenceExtractor.memoryImpact impact)
         + impactMap (EvidenceExtractor.ioImpact impact)
         + Qnat (List.length (EvidenceExtractor.scalabilityIssues impact)) * 0.5)%Q
    | None => 5%Q
    end in
  let architecturalScore : Q :=
    match codeMetrics data with
    | Some metrics =>
        Math_min 10
          (EvidenceExtractor.cyclomatic (EvidenceExtractor.complexity metrics) / 10
           + Qnat (EvidenceExtractor.codeSmells (EvidenceExtractor.quality metrics)) * 0.5)%Q
    | None => 5%Q
    end in
  let apiChanges :=
    List.length (List.filter (fun f =>
      includes (filename f) "api" || includes (filename f) "interface") (changedFiles data)) in
  let compatibilityScore : Q := Math_min 10 (Qnat apiChanges * 2)%Q in
  let avgScore : Q :=
    ((securityScore + performanceScore + architecturalScore + compatibilityScore) / 4)%Q in
  let overall := overallLevel avgScore in
  {| overall := overall;
     security := securityScore;
     performance := performanceScore;
     architectural := architecturalScore;
     compatibility := compatibilityScore;
     summary :=
       let text :=
         trim ("Overall risk: " ++ level_name overall ++ ". Key concerns: "
               ++ (if Qle_bool 7 securityScore then "security " else EmptyString)
               ++ (if Qle_bool 7 performanceScore then "performance " else EmptyString)
               ++ (if Qle_bool 7 architecturalScore then "architecture " else EmptyString)
               ++ (if Qle_bool 7 compatibilityScore then "compatibility" else EmptyString)) in
       if truthy text then text else "None identified" |}.

(** [getPRDiff], given the output of the [gh pr diff] command, [None] when
    the command fails. *)
Definition getPRDiff (ghPrDiff : option string) : string :=
  match ghPrDiff with
  | Some stdout =>
      let lines := split_char "010" stdout in
      if (1000 <? List.length lines)%nat
      then join_char "010" (firstn 1000 lines)
           ++ String "010" (String "010" "... (diff truncated)")
      else stdout
  | None => "Failed to retrieve diff"
  end.

End ContextBuilder.

(** * Properties *)

Module EE := EvidenceExtractor.
Module AM := ArgumentMiner.
Module CB := ContextBuilder.

(** ** Vocabulary of the statements *)

(** The two kinds of edge counted by [calculateConsensusLevel]. *)
Definition is_support (e : AM.ArgumentEdge) : bool :=
  AM.EdgeType_eqb (AM.edge_type e) AM.supports.

Definition is_conflict (e : AM.ArgumentEdge) : bool :=
  AM.EdgeType_eqb (AM.edge_type e) AM.rebuts
  || AM.EdgeType_eqb (AM.edge_type e) AM.undermines.

(** Vocabulary for a line of the log: its hash, the similarity of its diff
    to the current one, and the lines reached by the scan, i.e. those
    before the first failing [git show]. *)
Definition commitHash (commitLine : string) : string :=
  nth 0 (split_char "|" commitLine) EmptyString.

Definition commitSimilarity (git : EE.Git) (diff commitLine : string) : Q :=
  match EE.gitShow git (commitHash commitLine) with
  | Some out => EE.calculateDiffSimilarity diff (trim out)
  | None => 0%Q
  end.

Fixpoint scannedCommits (git : EE.Git) (commits : list string) : list string :=
  match commits with
  | [] => []
  | commitLine :: commits' =>
      match EE.gitShow git (commitHash commitLine) with
      | Some _ => commitLine :: scannedCommits git commits'
      | None => []
      end
  end.

Definition logLines (git : EE.Git) : list string :=
  match EE.gitLog git with
  | Some out => split_char "010" (trim out)
  | None => []
  end.

(** Larger similarity first. *)
Definition descending (a b : EE.HistoricalMatch) : Prop :=
  (EE.similarity b <= EE.similarity a)%Q.

(** ** Sample inputs *)

(** An argument with the given identifier, persona and claim, as the
    parser makes them: no rebuttal, strength 0. *)
Definition sampleArgument (i a c : string) : AM.ToulminArgument :=
  {| AM.id := i; AM.agent := a; AM.timestamp := 0%Z; AM.claim := c;
     AM.grounds := []; AM.warrant := EmptyString; AM.backing := [];
     AM.qualifier := Some EmptyString; AM.rebuttal := None; AM.strength := 0%Q |}.

(** A repository whose one changed file is prose. *)
Definition proseStore (path : string) : option string :=
  if String.eqb path "README.md" then Some "# Title" else None.

(** Five changed files, each with three nested loops, a blocking read and
    a chained collection transform. *)
Definition hotFile : string :=
  "for (a) { for (b) {} } for (c) { for (d) {} } for (e) { for (f) {} } readFileSync(p); xs.map(f).filter(g).map(h)".

Definition hotStore (path : string) : option string := Some hotFile.

Definition hotChange (path : string) : EE.Change :=
  {| EE.file := path; EE.type := EE.modified; EE.additions := 10;
     EE.deletions := 0; EE.patches := [EmptyString] |}.

Definition hotChanges : list EE.Change :=
  map hotChange ["a.ts"; "b.ts"; "c.ts"; "d.ts"; "e.ts"].

Definition hotData : CB.RiskData :=
  {| CB.securityScan := None;
     CB.codeMetrics := None;
     CB.performanceImpact := Some (EE.analyzePerformanceImpact hotStore hotChanges);
     CB.changedFiles :=
       map (fun path => {| CB.filename := path; CB.additions := 10; CB.deletions := 0;
                           CB.changes := 10; CB.patch := Some EmptyString |})
           ["a.ts"; "b.ts"; "c.ts"; "d.ts"; "e.ts"] |}.

Definition sampleMetrics : EE.CodeMetrics :=
  {| EE.complexity :=
       {| EE.cyclomatic := 20; EE.cognitive := 12; EE.halstead_difficulty := 40;
          EE.halstead_volume := 10; EE.halstead_effort := 200;
          EE.maintainabilityIndex := Fin 150 |};
     EE.size := {| EE.loc := 100; EE.sloc := 80; EE.files := 1; EE.functions := 1;
                   EE.classes := 0 |};
     EE.quality := {| EE.duplicateLines := 0; EE.duplicateBlocks := 0;
                      EE.codeSmells := 0; EE.technicalDebt := 0 |};
     EE.dependencies := {| EE.direct := 0; EE.transitive := 0; EE.outdated := 0;
                           EE.vulnerable := 0; EE.licenses := [] |} |}.

(** Scores 9, 2, 2 and 2: two critical and one medium finding, a medium
    memory impact, an average cyclomatic complexity of 20 and one changed
    file of the API. *)
Definition sampleData : CB.RiskData :=
  {| CB.securityScan :=
       Some {| CB.vulnerabilities := 3; CB.critical := 2; CB.high := 0;
               CB.medium := 1; CB.low := 0 |};
     CB.codeMetrics := Some sampleMetrics;
     CB.performanceImpact :=
       Some {| EE.cpuImpact := EE.none; EE.memoryImpact := EE.medium;
               EE.ioImpact := EE.none; EE.estimatedLatencyChange := 0;
               EE.scalabilityIssues := [];
               EE.optimizationOpportunities := ["Optimize array operations in src/api.ts"] |};
     CB.changedFiles :=
       [{| CB.filename := "src/api.ts"; CB.additions := 4; CB.deletions := 1;
           CB.changes := 5; CB.patch := None |}] |}.

Definition cachingText : string :=
  "Claim: Use caching. Grounds: profiling shows 80% cpu time here.".

Definition approveClaim : string := "We should approve this change".

Definition rejectClaim : string := "We should reject this change".

(** A history of one commit, reachable from main and not reverted, whose
    [git show] output is [shown]. *)
Definition oneCommit (shown : string) : EE.Git :=
  {| EE.gitLog := Some "c0ffee1|2024-05-01 10:00:00 +0000|alice|Add cache";
     EE.gitShow := fun _ => Some shown;
     EE.gitBranchContains := fun _ => Some "* main";
     EE.gitLogGrepRevert := fun _ => Some EmptyString;
     EE.gitMessage := fun _ => Some "Add cache (#12)" |}.

Definition cacheLine : string := "c0ffee1|2024-05-01 10:00:00 +0000|alice|Add cache".

(** ** Vocabulary of the further properties *)

(** The quotient both similarity functions compute from their two token
    sets. *)
Definition jaccard (tokens1 tokens2 : gset string) : Q :=
  let intersection : gset string := filter (fun x => x ∈ tokens2) tokens1 in
  let union : gset string := tokens1 ∪ tokens2 in
  if (0 <? size union)%nat
  then (Z.of_nat (size intersection) # Pos.of_nat (size union))%Q
  else 0%Q.

(** The word set of [calculateSimilarity]. *)
Definition words (text : string) : gset string :=
  list_to_set (split AM.re_spaces (toLowerCase text)).

(** A repository without version-control history: every command fails. *)
Definition noHistory : EE.Git :=
  {| EE.gitLog := None;
     EE.gitShow := fun _ => None;
     EE.gitBranchContains := fun _ => None;
     EE.gitLogGrepRevert := fun _ => None;
     EE.gitMessage := fun _ => None |}.

(** The severity order of the impact levels. *)
Definition impactRank (i : EE.Impact) : nat :=
  match i with
  | EE.none => 0
  | EE.low => 1
  | EE.medium => 2
  | EE.high => 3
  end.

(** The result of [analyzePerformanceImpact] before any change is seen. *)
Definition noImpact : EE.PerformanceImpact :=
  {| EE.cpuImpact := EE.none; EE.memoryImpact := EE.none; EE.ioImpact := EE.none;
     EE.estimatedLatencyChange := 0; EE.scalabilityIssues := [];
     EE.optimizationOpportunities := [] |}.

(** One profile is at least as severe as another: no level is lower, the
    latency estimate is not smaller, and the two lists extend the other's. *)
Definition escalates (before after : EE.PerformanceImpact) : Prop :=
  (impactRank (EE.cpuImpact before) <= impactRank (EE.cpuImpact after))%nat /\
  (impactRank (EE.memoryImpact before) <= impactRank (EE.memoryImpact after))%nat /\
  (impactRank (EE.ioImpact before) <= impactRank (EE.ioImpact after))%nat /\
  (EE.estimatedLatencyChange before <= EE.estimatedLatencyChange after)%nat /\
  (exists more, EE.scalabilityIssues after = (EE.scalabilityIssues before ++ more)%list) /\
  (exists more, EE.optimizationOpportunities after
                = (EE.optimizationOpportunities before ++ more)%list).

(** What every result of [analyzePerformanceImpact] satisfies. *)
Definition impactConsistent (r : EE.PerformanceImpact) : Prop :=
  (EE.cpuImpact r = EE.none \/ EE.cpuImpact r = EE.high) /\
  (EE.memoryImpact r = EE.none \/ EE.memoryImpact r = EE.medium) /\
  (EE.ioImpact r = EE.none \/ EE.ioImpact r = EE.high) /\
  (EE.cpuImpact r = EE.high ->
     (150 <= EE.estimatedLatencyChange r)%nat /\ EE.scalabilityIssues r <> []) /\
  (EE.ioImpact r = EE.high -> (100 <= EE.estimatedLatencyChange r)%nat) /\
  (EE.memoryImpact r = EE.medium -> EE.optimizationOpportunities r <> []).

(** The counts [calculateComplexity] accumulates over a file list. *)
Definition fileAnalysis (rf : string -> option string) (path : string) : EE.Analysis :=
  EE.analyzeCodeComplexity (EE.getFileContent rf path).

Definition functionsFound (rf : string -> option string) (paths : list string) : nat :=
  list_sum (map (fun p => EE.a_functions (fileAnalysis rf p)) paths).

Definition pathsCounted (rf : string -> option string) (paths : list string) : nat :=
  list_sum (map (fun p => EE.a_cyclomatic (fileAnalysis rf p)) paths).

Definition cognitiveTotal (rf : string -> option string) (paths : list string) : nat :=
  list_sum (map (fun p => EE.a_cognitive (fileAnalysis rf p)) paths).

(** At least as strong, and at most as strong. *)
Definition stronger (a b : AM.ToulminArgument) : Prop :=
  (AM.strength b <= AM.strength a)%Q.

Definition weaker (a b : AM.ToulminArgument) : Prop :=
  (AM.strength a <= AM.strength b)%Q.

(** The miner after parsing the caching text as the persona "performance". *)
Definition parsedMiner : AM.Miner :=
  snd (AM.parseAgentOutput (fun _ => "uuid-0") (fun _ => 0%Z) "performance"
         cachingText AM.newMiner).

(** What the parser makes of a section: the argument carries the [n]-th
    identifier handed out and the persona given, has a non-empty claim,
    strength 0 and no rebuttal. *)
Definition parsedAs (randomUUID : nat -> string) (agentName : string) (n : nat)
    (arg : AM.ToulminArgument) : Prop :=
  AM.id arg = randomUUID n /\ AM.agent arg = agentName /\
  truthy (AM.claim arg) = true /\ AM.strength arg = 0%Q /\ AM.rebuttal arg = None.

(** Identifiers that never repeat: the n-th is n letters long. *)
Definition unaryId (n : nat) : string := str (repeat "u"%char n).

(** The severity order of the risk levels. *)
Definition levelRank (l : CB.RiskLevel) : nat :=
  match l with
  | CB.risk_low => 0
  | CB.risk_medium => 1
  | CB.risk_high => 2
  | CB.risk_critical => 3
  end.

(** The same review context with another security scan. *)
Definition withScan (data : CB.RiskData) (scan : CB.SecurityScan) : CB.RiskData :=
  {| CB.securityScan := Some scan;
     CB.codeMetrics := CB.codeMetrics data;
     CB.performanceImpact := CB.performanceImpact data;
     CB.changedFiles := CB.changedFiles data |}.

(** Line number of a finding, and an issue moved down by [d] lines. *)
Definition findingLine (x : nat * string * EE.Pattern * rmatch_result) : nat :=
  let '(lineNum, _, _, _) := x in lineNum.

Definition shiftLine (d : nat) (i : EE.SecurityIssue) : EE.SecurityIssue :=
  {| EE.issue_id := EE.issue_id i; EE.severity := EE.severity i;
     EE.issue_type := EE.issue_type i; EE.issue_file := EE.issue_file i;
     EE.line := EE.line i + d; EE.column := EE.column i;
     EE.message := EE.message i; EE.cwe := EE.cwe i; EE.owasp := EE.owasp i;
     EE.fixSuggestion := EE.fixSuggestion i |}.

(** Two texts one after the other, on separate lines. *)
Definition onSeparateLines (a b : string) : string := a ++ String "010" b.

(** ** Token-set similarity *)

Section Jaccard.

Implicit Types T U : gset string.

Lemma filter_elem_of_comm T U :
  filter (fun x => x ∈ U) T = filter (fun x => x ∈ T) U.
Proof. apply set_eq. intros x. rewrite !elem_of_filter. tauto. Qed.

Lemma filter_elem_of_self T : filter (fun x => x ∈ T) T = T.
Proof. apply set_eq. intros x. rewrite elem_of_filter. tauto. Qed.

Lemma ratio_self (n : nat) : (0 < n)%nat -> (Z.of_nat n # Pos.of_nat n == 1)%Q.
Proof.
  intros Hn. unfold Qeq. simpl.
  rewrite Z.mul_1_r, Z.mul_1_l.
  destruct n as [|n']; [lia|].
  rewrite <- Pos.of_nat_succ, Zpos_P_of_succ_nat. lia.
Qed.

Lemma size_pos_of_elem T x : x ∈ T -> (0 < size T)%nat.
Proof.
  intros Hx. destruct (decide (size T = 0)) as [Hz|Hz]; [|lia].
  apply size_empty_inv in Hz. set_solver.
Qed.

End Jaccard.

Lemma split_from_nonempty (r : regex) (s : list ascii) :
  forall fuel p seg, (List.length s < fuel)%nat -> split_from fuel r p seg s <> [].
Proof.
  induction s as [|c s' IH]; intros fuel p seg Hfuel.
  - destruct fuel as [|fuel']; [simpl in Hfuel; lia|]. discriminate.
  - destruct fuel as [|fuel']; [simpl in Hfuel; lia|].
    simpl in Hfuel. simpl.
    destruct (match_here r p (c :: s')) as [m|].
    + destruct (_ && _); [apply IH; lia | discriminate].
    + apply IH; lia.
Qed.

Lemma split_spaces_nonempty (s : string) : split AM.re_spaces s <> [].
Proof.
  unfold split, test, match_first.
  destruct (chars s) as [|c l] eqn:E.
  - discriminate.
  - apply split_from_nonempty. simpl. lia.
Qed.

Lemma word_set_nonempty (s : string) :
  (0 < size (list_to_set (split AM.re_spaces s) : gset string))%nat.
Proof.
  pose proof (split_spaces_nonempty s) as H.
  destruct (split AM.re_spaces s) as [|w ws]; [congruence|].
  apply (size_pos_of_elem _ w). set_solver.
Qed.

(** C1 (as stated, refuted): a text without any word token has
    similarity 0 to itself under [calculateDiffSimilarity], the value the
    guard on an empty union returns. *)
Lemma diff_similarity_empty_text_not_one :
  EE.calculateDiffSimilarity "--- +++" "--- +++" = 0%Q /\
  ~ (EE.calculateDiffSimilarity "--- +++" "--- +++" == 1)%Q.
Proof. split; [vm_compute; reflexivity | vm_compute; discriminate]. Qed.

(** C1 (amended): both similarity functions are symmetric on all texts;
    [calculateSimilarity] gives 1 on every pair of equal texts;
    [calculateDiffSimilarity] gives 1 on a pair of equal texts that contain
    at least one word token, and 0 on a pair of equal texts without one. *)
Theorem jaccard_similarity_laws :
  (forall A B : string, EE.calculateDiffSimilarity A B = EE.calculateDiffSimilarity B A) /\
  (forall A B : string, AM.calculateSimilarity A B = AM.calculateSimilarity B A) /\
  (forall A : string, (AM.calculateSimilarity A A == 1)%Q) /\
  (forall A : string, EE.tokens A <> ∅ -> (EE.calculateDiffSimilarity A A == 1)%Q) /\
  (forall A : string, EE.tokens A = ∅ -> EE.calculateDiffSimilarity A A = 0%Q).
Proof.
  repeat split.
  - intros A B. unfold EE.calculateDiffSimilarity. cbv zeta.
    rewrite (filter_elem_of_comm (EE.tokens A) (EE.tokens B)).
    rewrite (union_comm_L (EE.tokens A) (EE.tokens B)). reflexivity.
  - intros A B. unfold AM.calculateSimilarity. cbv zeta.
    rewrite (filter_elem_of_comm (list_to_set (split AM.re_spaces (toLowerCase A)))).
    rewrite (union_comm_L (list_to_set (split AM.re_spaces (toLowerCase A)))).
    reflexivity.
  - intros A. unfold AM.calculateSimilarity. cbv zeta.
    rewrite filter_elem_of_self, union_idemp_L.
    pose proof (word_set_nonempty (toLowerCase A)) as Hpos.
    destruct (Nat.ltb_spec 0 (size (list_to_set (split AM.re_spaces (toLowerCase A)) : gset string)))
      as [Hlt|Hge]; [|lia].
    apply ratio_self, Hlt.
  - intros A Hne. unfold EE.calculateDiffSimilarity. cbv zeta.
    rewrite filter_elem_of_self, union_idemp_L.
    destruct (Nat.ltb_spec 0 (size (EE.tokens A))) as [Hlt|Hge].
    + apply ratio_self, Hlt.
    + exfalso. apply Hne. apply leibniz_equiv, size_empty_inv. lia.
  - intros A He. unfold EE.calculateDiffSimilarity. cbv zeta.
    rewrite He. reflexivity.
Qed.

(** The text "foo bar" has tokens, and similarity 1 to itself. *)
Lemma jaccard_similarity_laws_witness :
  EE.tokens "foo bar" <> ∅ /\ (EE.calculateDiffSimilarity "foo bar" "foo bar" == 1)%Q.
Proof.
  assert (H : EE.tokens "foo bar" <> ∅).
  { intros H. apply (f_equal size) in H. vm_compute in H. discriminate. }
  split; [exact H|].
  exact (proj1 (proj2 (proj2 (proj2 jaccard_similarity_laws))) "foo bar" H).
Defined.

(** ** Consensus level *)

Lemma countEdges_from (es : list AM.ArgumentEdge) :
  forall s c : nat,
    fold_left (fun '(supportCount, conflictCount) edge =>
      if AM.EdgeType_eqb (AM.edge_type edge) AM.supports then (S supportCount, conflictCount)
      else if AM.EdgeType_eqb (AM.edge_type edge) AM.rebuts
              || AM.EdgeType_eqb (AM.edge_type edge) AM.undermines
      then (supportCount, S conflictCount)
      else (supportCount, conflictCount)) es (s, c)
    = (s + List.length (List.filter is_support es),
       c + List.length (List.filter is_conflict es))%nat.
Proof.
  induction es as [|e es IH]; intros s c; simpl.
  - f_equal; lia.
  - destruct e as [f t [] w]; cbn; rewrite IH; cbn; f_equal; lia.
Qed.

Lemma countEdges_spec (es : list AM.ArgumentEdge) :
  AM.countEdges es =
  (List.length (List.filter is_support es), List.length (List.filter is_conflict es)).
Proof. unfold AM.countEdges. rewrite countEdges_from. reflexivity. Qed.

Lemma filter_none {A : Type} (f : A -> bool) (l : list A) :
  (forall x, In x l -> f x = false) -> List.filter f l = [].
Proof.
  induction l as [|x l IH]; intros H; simpl; [reflexivity|].
  rewrite (H x (or_introl eq_refl)). apply IH. intros y Hy. apply H. right. exact Hy.
Qed.

Lemma ratio_bounds (s t : nat) :
  (s <= t)%nat -> (0 < t)%nat -> (0 <= Z.of_nat s # Pos.of_nat t)%Q /\ (Z.of_nat s # Pos.of_nat t <= 1)%Q.
Proof.
  intros Hst Ht. unfold Qle. simpl. rewrite !Z.mul_1_r.
  split; [lia|].
  destruct t as [|t']; [lia|].
  rewrite Z.mul_1_l, <- Pos.of_nat_succ, Zpos_P_of_succ_nat. lia.
Qed.

(** The consensus level of [generateMetrics] is that of the graph held by
    the miner. *)
Lemma generateMetrics_consensusLevel (this : AM.Miner) :
  AM.consensusLevel (fst (AM.generateMetrics this)) =
  if (List.length (AM.nodes (AM.graph this)) =? 0)%nat then 0%Q
  else
    let s := List.length (List.filter is_support (AM.edges (AM.graph this))) in
    let c := List.length (List.filter is_conflict (AM.edges (AM.graph this))) in
    if (s + c =? 0)%nat then 0.5%Q else (Z.of_nat s # Pos.of_nat (s + c))%Q.
Proof.
  unfold AM.generateMetrics, AM.calculateConsensusLevel. cbn [fst AM.consensusLevel AM.graph].
  rewrite countEdges_spec. reflexivity.
Qed.

(** C2 (as stated, refuted): on the graph built from the empty argument
    list (no nodes, no edges) the consensus level is 0, not 0.5. *)
Lemma consensus_empty_graph_is_zero :
  let this := snd (AM.buildArgumentGraph [] AM.newMiner) in
  AM.edges (AM.graph this) = [] /\
  AM.consensusLevel (fst (AM.generateMetrics this)) = 0%Q /\
  ~ (AM.consensusLevel (fst (AM.generateMetrics this)) == 0.5)%Q.
Proof. vm_compute. repeat split; discriminate. Qed.

(** C2 (amended): the consensus level returned by [generateMetrics] lies
    in [0,1]; when the graph has no supports/rebuts/undermines edge it is
    exactly 0.5 if the graph has at least one node, and 0 if it has none. *)
Theorem consensus_level_range_and_neutral (this : AM.Miner) :
  let c := AM.consensusLevel (fst (AM.generateMetrics this)) in
  (0 <= c /\ c <= 1)%Q /\
  ((forall e, In e (AM.edges (AM.graph this)) ->
      AM.edge_type e <> AM.supports /\ AM.edge_type e <> AM.rebuts /\
      AM.edge_type e <> AM.undermines) ->
   (AM.nodes (AM.graph this) <> [] -> c = 0.5%Q) /\
   (AM.nodes (AM.graph this) = [] -> c = 0%Q)).
Proof.
  cbv zeta. rewrite generateMetrics_consensusLevel. cbv zeta.
  set (s := List.length (List.filter is_support (AM.edges (AM.graph this)))).
  set (k := List.length (List.filter is_conflict (AM.edges (AM.graph this)))).
  split.
  - destruct (List.length (AM.nodes (AM.graph this)) =? 0)%nat; [split; discriminate|].
    destruct (Nat.eqb_spec (s + k) 0) as [Hz|Hnz]; [split; discriminate|].
    apply ratio_bounds; lia.
  - intros Hnone.
    assert (Hs : s = 0%nat).
    { unfold s. rewrite filter_none; [reflexivity|].
      intros e He. destruct (Hnone e He) as (H1 & _ & _).
      unfold is_support. destruct (AM.edge_type e); try reflexivity. congruence. }
    assert (Hk : k = 0%nat).
    { unfold k. rewrite filter_none; [reflexivity|].
      intros e He. destruct (Hnone e He) as (_ & H2 & H3).
      unfold is_conflict. destruct (AM.edge_type e); try reflexivity; congruence. }
    rewrite Hs, Hk. simpl.
    split; intros Hn.
    + destruct (AM.nodes (AM.graph this)); [congruence|reflexivity].
    + rewrite Hn. reflexivity.
Qed.

(** One argument, no edge: neutral consensus. *)
Lemma consensus_level_range_and_neutral_witness :
  let this := snd (AM.buildArgumentGraph
                     [sampleArgument "a1" "security" "Caching is fine"] AM.newMiner) in
  AM.consensusLevel (fst (AM.generateMetrics this)) = 0.5%Q.
Proof.
  cbv zeta.
  refine (proj1 (proj2 (consensus_level_range_and_neutral _) _) _).
  - vm_compute. intros e [].
  - vm_compute. discriminate.
Defined.

(** ** Maintainability index *)

(** C3 (the code departs from the claim): for a file list in which no
    function is found the average cyclomatic complexity is 0, its
    logarithm is taken without any clamping, and the maintainability index
    returned by [extractCodeMetrics] is plus infinity, whatever finite
    values [Math.log] takes on the positive numbers. *)
Theorem maintainability_index_infinite_without_functions :
  forall (manifest : option (list string)) (ln : Q -> Q),
    let metrics := EE.extractCodeMetrics proseStore manifest ln ["README.md"] in
    EE.cyclomatic (EE.complexity metrics) = 0%Q /\
    EE.maintainabilityIndex (EE.complexity metrics) = PosInf /\
    is_finite (EE.maintainabilityIndex (EE.complexity metrics)) = false.
Proof. intros manifest ln. vm_compute. repeat split. Qed.

(** The same happens on the empty file list. *)
Lemma maintainability_index_infinite_no_files :
  forall (readFile : string -> option string) (ln : Q -> Q),
    EE.maintainabilityIndex (EE.calculateComplexity readFile ln []) = PosInf.
Proof. intros readFile ln. vm_compute. reflexivity. Qed.

(** When functions outnumber the counted paths the average lies strictly
    between 0 and 1 and enters the logarithm as it is. *)
Lemma maintainability_index_unclamped_below_one :
  forall ln : Q -> Q,
    let store := fun _ : string => Some "function f function g function h" in
    EE.cyclomatic (EE.calculateComplexity store ln ["a.js"]) = (1 / 3)%Q /\
    EE.maintainabilityIndex (EE.calculateComplexity store ln ["a.js"]) =
      jmax (Fin 0) (jsub (jsub (Fin 171) (jmul (Fin 5.2) (Fin (ln (1 / 3)%Q)))) (Fin (0.23 * 0)%Q)).
Proof. intros ln. split; reflexivity. Qed.

(** ** Risk assessment *)

(** C4 (the code departs from the claim): the performance score is the
    only one of the four that is not capped; on the impact profile that
    [analyzePerformanceImpact] computes for [hotChanges] it is 10.5. *)
Theorem performance_score_exceeds_ten :
  let impact := EE.analyzePerformanceImpact hotStore hotChanges in
  let r := CB.calculateRiskAssessment hotData in
  EE.cpuImpact impact = EE.high /\ EE.memoryImpact impact = EE.medium /\
  EE.ioImpact impact = EE.high /\ List.length (EE.scalabilityIssues impact) = 5%nat /\
  (CB.performance r == 10.5)%Q /\ ~ (CB.performance r <= 10)%Q.
Proof.
  cbv zeta. repeat split; try (vm_compute; reflexivity).
  intros H. vm_compute in H. apply H. reflexivity.
Qed.

Lemma Math_min_bounds (a x : Q) :
  (0 <= a)%Q -> (0 <= x)%Q -> (0 <= Math_min a x)%Q /\ (Math_min a x <= a)%Q.
Proof.
  intros Ha Hx. unfold Math_min.
  destruct (Qle_bool a x) eqn:E.
  - split; [exact Ha | apply Qle_refl].
  - split; [exact Hx|].
    destruct (Qlt_le_dec x a) as [Hlt|Hle]; [apply Qlt_le_weak, Hlt|].
    apply Qle_bool_iff in Hle. congruence.
Qed.

Lemma Qnat_nonneg (n : nat) : (0 <= Qnat n)%Q.
Proof. unfold Qnat, Qle. simpl. lia. Qed.

(** The three capped scores do lie in [0,10], for metrics whose average
    cyclomatic complexity is not negative. *)
Lemma capped_scores_in_range (data : CB.RiskData) :
  (forall m, CB.codeMetrics data = Some m -> (0 <= EE.cyclomatic (EE.complexity m))%Q) ->
  let r := CB.calculateRiskAssessment data in
  (0 <= CB.security r <= 10)%Q /\ (0 <= CB.architectural r <= 10)%Q /\
  (0 <= CB.compatibility r <= 10)%Q.
Proof.
  intros Hcyc. cbv zeta. unfold CB.calculateRiskAssessment. cbn.
  split; [|split].
  - destruct (CB.securityScan data) as [scan|]; [|lra].
    apply Math_min_bounds; [lra|].
    pose proof (Qnat_nonneg (CB.critical scan)).
    pose proof (Qnat_nonneg (CB.high scan)).
    pose proof (Qnat_nonneg (CB.medium scan)).
    pose proof (Qnat_nonneg (CB.low scan)). lra.
  - destruct (CB.codeMetrics data) as [m|] eqn:E; [|lra].
    apply Math_min_bounds; [lra|].
    pose proof (Qnat_nonneg (EE.codeSmells (EE.quality m))).
    assert (0 <= EE.cyclomatic (EE.complexity m) / 10)%Q.
    { apply Qle_shift_div_l; [reflexivity|]. rewrite Qmult_0_l. exact (Hcyc m eq_refl). }
    lra.
  - apply Math_min_bounds; [lra|].
    match goal with |- context [Qnat ?n] => pose proof (Qnat_nonneg n) end. lra.
Qed.

(** C5 (as stated, refuted): with scores 9, 2, 2 and 2 the mean is 3.75
    and the overall level is "low", not "medium". *)
Lemma risk_9_2_2_2_is_not_medium :
  let r := CB.calculateRiskAssessment sampleData in
  (CB.security r == 9)%Q /\ (CB.performance r == 2)%Q /\
  (CB.architectural r == 2)%Q /\ (CB.compatibility r == 2)%Q /\
  CB.overall r = CB.risk_low /\ CB.overall r <> CB.risk_medium.
Proof.
  cbv zeta. repeat split; try (vm_compute; reflexivity).
  vm_compute. discriminate.
Qed.

Lemma overallLevel_thresholds (avg : Q) :
  ((8 <= avg)%Q -> CB.overallLevel avg = CB.risk_critical) /\
  ((6 <= avg)%Q -> (avg < 8)%Q -> CB.overallLevel avg = CB.risk_high) /\
  ((4 <= avg)%Q -> (avg < 6)%Q -> CB.overallLevel avg = CB.risk_medium) /\
  ((avg < 4)%Q -> CB.overallLevel avg = CB.risk_low).
Proof.
  unfold CB.overallLevel.
  destruct (Qle_bool 8 avg) eqn:E8; destruct (Qle_bool 6 avg) eqn:E6;
    destruct (Qle_bool 4 avg) eqn:E4;
    try (apply Qle_bool_iff in E8); try (apply Qle_bool_iff in E6);
    try (apply Qle_bool_iff in E4);
    repeat split; intros; try reflexivity; exfalso;
    repeat match goal with
           | H : Qle_bool ?a ?b = false |- _ =>
               assert (~ (a <= b)%Q) by (rewrite <- Qle_bool_iff; congruence); clear H
           end; lra.
Qed.

(** C5 (amended): the overall level of [calculateRiskAssessment] is fixed
    by thresholds on the unweighted mean of the four scores (at least 8
    critical, at least 6 high, at least 4 medium, otherwise low), and with
    scores 9, 2, 2 and 2 (mean 3.75) it is "low". *)
Theorem risk_overall_level_by_mean (data : CB.RiskData) :
  let r := CB.calculateRiskAssessment data in
  let mean := ((CB.security r + CB.performance r + CB.architectural r
                + CB.compatibility r) / 4)%Q in
  ((8 <= mean)%Q -> CB.overall r = CB.risk_critical) /\
  ((6 <= mean)%Q -> (mean < 8)%Q -> CB.overall r = CB.risk_high) /\
  ((4 <= mean)%Q -> (mean < 6)%Q -> CB.overall r = CB.risk_medium) /\
  ((mean < 4)%Q -> CB.overall r = CB.risk_low) /\
  ((CB.security r == 9)%Q -> (CB.performance r == 2)%Q ->
   (CB.architectural r == 2)%Q -> (CB.compatibility r == 2)%Q ->
   CB.overall r = CB.risk_low).
Proof.
  cbv zeta.
  set (r := CB.calculateRiskAssessment data).
  set (mean := ((CB.security r + CB.performance r + CB.architectural r
                 + CB.compatibility r) / 4)%Q).
  assert (Hov : CB.overall r = CB.overallLevel mean) by reflexivity.
  rewrite Hov.
  destruct (overallLevel_thresholds mean) as (H8 & H6 & H4 & H0).
  repeat split; try assumption.
  intros Hs Hp Ha Hc. apply H0.
  unfold mean. rewrite Hs, Hp, Ha, Hc. reflexivity.
Qed.

(** The sample with scores 9, 2, 2 and 2 is assessed as low. *)
Lemma risk_overall_level_by_mean_witness :
  CB.overall (CB.calculateRiskAssessment sampleData) = CB.risk_low.
Proof.
  refine (proj2 (proj2 (proj2 (proj2 (risk_overall_level_by_mean sampleData)))) _ _ _ _);
    vm_compute; reflexivity.
Defined.

(** ** Argument parser *)

(** C6 (as stated, refuted): the claim pattern captures up to the end of
    the line, so the claim of the one argument is not "Use caching.". *)
Lemma parse_caching_claim_is_whole_line :
  map AM.claim
    (fst (AM.parseAgentOutput (fun _ => "uuid-0") (fun _ => 0%Z) "performance"
            cachingText AM.newMiner))
  = ["Use caching. Grounds: profiling shows 80% cpu time here."] /\
  map AM.claim
    (fst (AM.parseAgentOutput (fun _ => "uuid-0") (fun _ => 0%Z) "performance"
            cachingText AM.newMiner))
  <> ["Use caching."].
Proof. split; [vm_compute; reflexivity | vm_compute; discriminate]. Qed.

(** C6 (amended): [parseAgentOutput] on the text yields exactly one
    argument; its claim is the rest of the line after the claim anchor,
    "Use caching. Grounds: profiling shows 80% cpu time here.", and its
    grounds list has exactly one entry, "profiling shows 80% cpu time
    here.". *)
Theorem parse_caching_one_argument :
  forall (randomUUID : nat -> string) (dateNow : nat -> Z) (agentName : string)
         (this : AM.Miner),
  exists arg : AM.ToulminArgument,
    fst (AM.parseAgentOutput randomUUID dateNow agentName cachingText this) = [arg] /\
    AM.claim arg = "Use caching. Grounds: profiling shows 80% cpu time here." /\
    AM.grounds arg = ["profiling shows 80% cpu time here."] /\
    AM.agent arg = agentName.
Proof.
  intros randomUUID dateNow agentName this.
  eexists. split; [vm_compute; reflexivity|].
  repeat split.
Qed.

(** ** Argument graph *)

(** Four of the six words of the two claims are shared. *)
Lemma approve_reject_similarity :
  AM.calculateSimilarity approveClaim rejectClaim = (4 # 6)%Q.
Proof. vm_compute. reflexivity. Qed.

(** C7: two arguments with the claims "We should approve this change" and
    "We should reject this change", neither persona mentioned in a claim
    and no rebuttal text, give a graph with exactly one edge: undermines,
    strength 0.7, from the earlier argument to the later one. *)
Theorem approve_reject_single_undermines_edge
    (arg1 arg2 : AM.ToulminArgument) (this : AM.Miner) :
  AM.claim arg1 = approveClaim ->
  AM.claim arg2 = rejectClaim ->
  includes (AM.claim arg2) (AM.agent arg1) = false ->
  includes (AM.claim arg1) (AM.agent arg2) = false ->
  AM.rebuttal arg1 = None ->
  AM.rebuttal arg2 = None ->
  AM.edges (fst (AM.buildArgumentGraph [arg1; arg2] this)) =
    [{| AM.edge_from := AM.id arg1; AM.edge_to := AM.id arg2;
        AM.edge_type := AM.undermines; AM.edge_strength := 0.7 |}].
Proof.
  intros Hc1 Hc2 Hm1 _ _ Hr2.
  unfold AM.buildArgumentGraph. cbn [fst AM.edges AM.pairEdges].
  cbn [omap list_omap]. unfold AM.analyzeRelationship.
  rewrite Hm1, Hr2. cbn [orb].
  unfold AM.areConflicting. rewrite Hc1, Hc2, approve_reject_similarity.
  reflexivity.
Qed.

(** The personas security and performance on the two claims. *)
Lemma approve_reject_single_undermines_edge_witness :
  AM.edges (fst (AM.buildArgumentGraph
                   [sampleArgument "a1" "security" approveClaim;
                    sampleArgument "a2" "performance" rejectClaim] AM.newMiner)) =
    [{| AM.edge_from := "a1"; AM.edge_to := "a2";
        AM.edge_type := AM.undermines; AM.edge_strength := 0.7 |}].
Proof.
  apply (approve_reject_single_undermines_edge
           (sampleArgument "a1" "security" approveClaim)
           (sampleArgument "a2" "performance" rejectClaim) AM.newMiner);
    reflexivity.
Defined.

Lemma analyzeRelationship_type (arg1 arg2 : AM.ToulminArgument) (e : AM.ArgumentEdge) :
  AM.analyzeRelationship arg1 arg2 = Some e ->
  AM.edge_type e = AM.supports \/ AM.edge_type e = AM.rebuts \/
  AM.edge_type e = AM.undermines.
Proof.
  unfold AM.analyzeRelationship.
  destruct (_ || _).
  - intros [= <-]. cbn. tauto.
  - cbv zeta. destruct (Qgt_bool _ _).
    + intros [= <-]. cbn. tauto.
    + destruct (AM.areConflicting arg1 arg2); [|discriminate].
      intros [= <-]. cbn. tauto.
Qed.

Lemma pairEdges_type (args : list AM.ToulminArgument) (e : AM.ArgumentEdge) :
  In e (AM.pairEdges args) ->
  AM.edge_type e = AM.supports \/ AM.edge_type e = AM.rebuts \/
  AM.edge_type e = AM.undermines.
Proof.
  induction args as [|arg_i later IH]; simpl; [tauto|].
  rewrite in_app_iff. intros [Hin|Hin]; [|exact (IH Hin)].
  apply list_elem_of_In, list_elem_of_omap in Hin.
  destruct Hin as (arg_j & _ & Hrel).
  exact (analyzeRelationship_type arg_i arg_j e Hrel).
Qed.

(** C10: every edge of the graph built by [buildArgumentGraph] is of type
    supports, rebuts or undermines; none is of type qualifies. *)
Theorem graph_edges_never_qualify
    (args : list AM.ToulminArgument) (this : AM.Miner) (e : AM.ArgumentEdge) :
  In e (AM.edges (fst (AM.buildArgumentGraph args this))) ->
  (AM.edge_type e = AM.supports \/ AM.edge_type e = AM.rebuts \/
   AM.edge_type e = AM.undermines) /\
  AM.edge_type e <> AM.qualifies.
Proof.
  intros Hin. unfold AM.buildArgumentGraph in Hin. cbn [fst AM.edges] in Hin.
  pose proof (pairEdges_type args e Hin) as Ht.
  split; [exact Ht|].
  destruct Ht as [Ht|[Ht|Ht]]; rewrite Ht; discriminate.
Qed.

(** The one edge of the approve/reject graph does not qualify. *)
Lemma graph_edges_never_qualify_witness :
  let args := [sampleArgument "a1" "security" approveClaim;
               sampleArgument "a2" "performance" rejectClaim] in
  let e := {| AM.edge_from := "a1"; AM.edge_to := "a2";
              AM.edge_type := AM.undermines; AM.edge_strength := 0.7%Q |} in
  In e (AM.edges (fst (AM.buildArgumentGraph args AM.newMiner))) /\
  AM.edge_type e <> AM.qualifies.
Proof.
  cbv zeta.
  assert (Hin : In {| AM.edge_from := "a1"; AM.edge_to := "a2";
                      AM.edge_type := AM.undermines; AM.edge_strength := 0.7%Q |}
                   (AM.edges (fst (AM.buildArgumentGraph
                      [sampleArgument "a1" "security" approveClaim;
                       sampleArgument "a2" "performance" rejectClaim] AM.newMiner)))).
  { vm_compute. left. reflexivity. }
  split; [exact Hin|].
  exact (proj2 (graph_edges_never_qualify _ _ _ Hin)).
Defined.

(** ** Performance impact *)

Lemma analyzeChange_ext (rf1 rf2 : string -> option string)
    (acc : EE.PerformanceImpact) (c1 c2 : EE.Change) :
  EE.file c1 = EE.file c2 ->
  EE.type c1 = EE.type c2 ->
  (EE.type c1 <> EE.deleted -> rf1 (EE.file c1) = rf2 (EE.file c1)) ->
  EE.analyzeChange rf1 acc c1 = EE.analyzeChange rf2 acc c2.
Proof.
  intros Hf Ht Hrf. unfold EE.analyzeChange, EE.getFileContent.
  rewrite <- Ht, <- Hf.
  destruct (EE.type c1); try reflexivity; rewrite Hrf; try reflexivity; discriminate.
Qed.

(** C9: [analyzePerformanceImpact] reads from a change only its path and
    its type, and from the file store only the files of the changes that
    are not deletions: two change lists with the same paths and types, in
    the same order, give the same result whatever their additions,
    deletions and patches, on stores that agree on those files. *)
Theorem performance_impact_ignores_diff_stats
    (rf1 rf2 : string -> option string) (changes1 changes2 : list EE.Change) :
  map (fun c => (EE.file c, EE.type c)) changes1
    = map (fun c => (EE.file c, EE.type c)) changes2 ->
  (forall c, In c changes1 -> EE.type c <> EE.deleted ->
             rf1 (EE.file c) = rf2 (EE.file c)) ->
  EE.analyzePerformanceImpact rf1 changes1 = EE.analyzePerformanceImpact rf2 changes2.
Proof.
  unfold EE.analyzePerformanceImpact.
  generalize ({| EE.cpuImpact := EE.none; EE.memoryImpact := EE.none;
                 EE.ioImpact := EE.none; EE.estimatedLatencyChange := 0;
                 EE.scalabilityIssues := []; EE.optimizationOpportunities := [] |}).
  revert changes2.
  induction changes1 as [|c1 cs1 IH]; intros [|c2 cs2] acc Hmap Hrf;
    try discriminate; [reflexivity|].
  simpl in Hmap. injection Hmap as Hf Ht Hrest.
  simpl.
  rewrite (analyzeChange_ext rf1 rf2 acc c1 c2 Hf Ht).
  - apply IH; [exact Hrest|]. intros c Hc. apply Hrf. right. exact Hc.
  - apply Hrf. left. reflexivity.
Qed.

(** Two listings of the same two files with different line counts and
    patches. *)
Lemma performance_impact_ignores_diff_stats_witness :
  EE.analyzePerformanceImpact hotStore
    [{| EE.file := "a.ts"; EE.type := EE.modified; EE.additions := 10;
        EE.deletions := 0; EE.patches := ["@@ -1 +1 @@"] |};
     {| EE.file := "old.ts"; EE.type := EE.deleted; EE.additions := 0;
        EE.deletions := 40; EE.patches := [] |}]
  = EE.analyzePerformanceImpact hotStore
    [{| EE.file := "a.ts"; EE.type := EE.modified; EE.additions := 700;
        EE.deletions := 3; EE.patches := [] |};
     {| EE.file := "old.ts"; EE.type := EE.deleted; EE.additions := 1;
        EE.deletions := 2; EE.patches := ["-x"; "-y"] |}].
Proof.
  apply performance_impact_ignores_diff_stats.
  - reflexivity.
  - intros c _ _. reflexivity.
Defined.

(** ** Historical matcher *)

Lemma Qgt_bool_iff (a b : Q) : Qgt_bool a b = true <-> (b < a)%Q.
Proof.
  unfold Qgt_bool. rewrite negb_true_iff. split.
  - intros H. apply Qnot_le_lt. intros Hle. apply Qle_bool_iff in Hle. congruence.
  - intros H. destruct (Qle_bool a b) eqn:E; [|reflexivity].
    apply Qle_bool_iff in E. exfalso. exact (Qlt_not_le _ _ H E).
Qed.

Section HistoricalMatcher.

Variable git : EE.Git.

Variable diff : string.

Lemma scanCommits_above_threshold (commits : list string) (m : EE.HistoricalMatch) :
  In m (EE.scanCommits git diff commits) -> (0.3 < EE.similarity m)%Q.
Proof.
  induction commits as [|l ls IH]; simpl; [tauto|].
  destruct (EE.gitShow git _) as [out|]; simpl; [|tauto].
  destruct (Qgt_bool _ _) eqn:E; [|exact IH].
  intros [<-|Hin]; [|exact (IH Hin)].
  apply Qgt_bool_iff in E. exact E.
Qed.

Lemma scanCommits_retains (commits : list string) (commitLine : string) :
  In commitLine (scannedCommits git commits) ->
  (0.3 < commitSimilarity git diff commitLine)%Q ->
  exists m, In m (EE.scanCommits git diff commits) /\
            EE.commit m = commitHash commitLine /\
            EE.similarity m = commitSimilarity git diff commitLine.
Proof.
  induction commits as [|l ls IH]; simpl; [tauto|].
  fold (commitHash l).
  destruct (EE.gitShow git (commitHash l)) as [out|] eqn:Eshow; simpl; [|tauto].
  intros [->|Hin] Hsim.
  - unfold commitSimilarity in Hsim |- *. rewrite Eshow in Hsim |- *.
    apply Qgt_bool_iff in Hsim. rewrite Hsim.
    eexists. split; [left; reflexivity|]. split; reflexivity.
  - destruct (IH Hin Hsim) as (m & Hm & Hrest).
    exists m. split; [|exact Hrest].
    destruct (Qgt_bool _ _); [right|]; exact Hm.
Qed.

Lemma candidateMatches_scan :
  EE.candidateMatches git diff = EE.scanCommits git diff (logLines git).
Proof.
  unfold EE.candidateMatches, logLines. destruct (EE.gitLog git); reflexivity.
Qed.

Lemma insertBySimilarity_perm (m : EE.HistoricalMatch) (l : list EE.HistoricalMatch) :
  Permutation (EE.insertBySimilarity m l) (m :: l).
Proof.
  induction l as [|y l IH]; simpl; [apply Permutation_refl|].
  destruct (Qle_bool _ _); [apply Permutation_refl|].
  apply perm_trans with (y :: m :: l); [apply perm_skip, IH | apply perm_swap].
Qed.

Lemma sortBySimilarity_perm (l : list EE.HistoricalMatch) :
  Permutation (EE.sortBySimilarity l) l.
Proof.
  induction l as [|m l IH]; simpl; [apply perm_nil|].
  apply perm_trans with (m :: EE.sortBySimilarity l);
    [apply insertBySimilarity_perm | apply perm_skip, IH].
Qed.

Lemma insertBySimilarity_sorted (m : EE.HistoricalMatch) (l : list EE.HistoricalMatch) :
  Sorted.Sorted descending l -> Sorted.Sorted descending (EE.insertBySimilarity m l).
Proof.
  induction l as [|y l IH]; intros Hs; simpl.
  - repeat constructor.
  - destruct (Qle_bool (EE.similarity y) (EE.similarity m)) eqn:E.
    + constructor; [exact Hs|]. constructor. apply Qle_bool_iff, E.
    + inversion Hs as [|? ? Hs' Hhd]; subst.
      constructor; [apply IH, Hs'|].
      assert (Hlt : (EE.similarity m <= EE.similarity y)%Q).
      { apply Qlt_le_weak, Qnot_le_lt. intros Hle.
        apply Qle_bool_iff in Hle. congruence. }
      destruct l as [|z l']; simpl.
      * constructor. exact Hlt.
      * destruct (Qle_bool (EE.similarity z) (EE.similarity m)).
        -- constructor. exact Hlt.
        -- inversion Hhd; subst. constructor. assumption.
Qed.

Lemma sortBySimilarity_sorted (l : list EE.HistoricalMatch) :
  Sorted.Sorted descending (EE.sortBySimilarity l).
Proof.
  induction l as [|m l IH]; simpl; [constructor|].
  apply insertBySimilarity_sorted, IH.
Qed.

(** C8 (amended): a scanned commit is among the candidate matches exactly
    when its similarity to the current diff is strictly above 0.3, so it
    is discarded exactly when its similarity is at most 0.3; the result is
    the first ten of the candidates in descending order of similarity, and
    all of them when there are at most ten. *)
Theorem similar_changes_threshold :
  let candidates := EE.candidateMatches git diff in
  (forall commitLine : string,
     In commitLine (scannedCommits git (logLines git)) ->
     ((exists m, In m candidates /\ EE.commit m = commitHash commitLine /\
                 EE.similarity m = commitSimilarity git diff commitLine)
      <-> (0.3 < commitSimilarity git diff commitLine)%Q)) /\
  EE.findSimilarChanges git diff = firstn 10 (EE.sortBySimilarity candidates) /\
  Permutation (EE.sortBySimilarity candidates) candidates /\
  Sorted.Sorted descending (EE.sortBySimilarity candidates) /\
  ((List.length candidates <= 10)%nat ->
   Permutation (EE.findSimilarChanges git diff) candidates).
Proof.
  cbv zeta. repeat split.
  - intros (m & Hm & _ & Hsim). rewrite <- Hsim.
    rewrite candidateMatches_scan in Hm.
    exact (scanCommits_above_threshold _ _ Hm).
  - intros Hsim. rewrite candidateMatches_scan.
    apply scanCommits_retains; assumption.
  - apply sortBySimilarity_perm.
  - apply sortBySimilarity_sorted.
  - intros Hlen. unfold EE.findSimilarChanges.
    rewrite firstn_all2; [apply sortBySimilarity_perm|].
    rewrite (Permutation_length (sortBySimilarity_perm _)). exact Hlen.
Qed.

End HistoricalMatcher.

(** C8 (as stated, refuted): a scanned commit whose similarity is exactly
    0.3, hence not below 0.3, is discarded. *)
Lemma similarity_of_exactly_threshold_discarded :
  let git := oneCommit "a b c d e f g h i j" in
  In cacheLine (scannedCommits git (logLines git)) /\
  (commitSimilarity git "a b c" cacheLine == 0.3)%Q /\
  ~ (commitSimilarity git "a b c" cacheLine < 0.3)%Q /\
  EE.candidateMatches git "a b c" = [] /\
  EE.findSimilarChanges git "a b c" = [].
Proof.
  cbv zeta. repeat split; try (vm_compute; reflexivity).
  - vm_compute. left. reflexivity.
  - vm_compute. discriminate.
Qed.

(** A commit sharing three of five tokens with the current diff is kept. *)
Lemma similar_changes_threshold_witness :
  let git := oneCommit "a b c d e" in
  exists m, In m (EE.candidateMatches git "a b c") /\
            EE.commit m = "c0ffee1" /\ (EE.similarity m == 0.6)%Q.
Proof.
  cbv zeta.
  assert (Hin : In cacheLine (scannedCommits (oneCommit "a b c d e")
                                (logLines (oneCommit "a b c d e")))).
  { vm_compute. left. reflexivity. }
  assert (Hsim : (0.3 < commitSimilarity (oneCommit "a b c d e") "a b c" cacheLine)%Q).
  { vm_compute. reflexivity. }
  destruct (proj2 (proj1 (similar_changes_threshold (oneCommit "a b c d e") "a b c")
                     cacheLine Hin) Hsim) as (m & Hm & Hc & Hs).
  exists m. split; [exact Hm|]. split; [exact Hc|].
  rewrite Hs. vm_compute. reflexivity.
Defined.

(** * Further properties of the engine *)

(** ** Similarity: range and extremes *)

Lemma calculateDiffSimilarity_jaccard (A B : string) :
  EE.calculateDiffSimilarity A B = jaccard (EE.tokens A) (EE.tokens B).
Proof. reflexivity. Qed.

Lemma calculateSimilarity_jaccard (A B : string) :
  AM.calculateSimilarity A B = jaccard (words A) (words B).
Proof. reflexivity. Qed.

Lemma filter_elem_of_inter (T U : gset string) :
  filter (fun x => x ∈ U) T = T ∩ U.
Proof. apply set_eq. intros x. rewrite elem_of_filter, elem_of_intersection. tauto. Qed.

Lemma Pos_of_nat_Z (n : nat) : (0 < n)%nat -> Z.pos (Pos.of_nat n) = Z.of_nat n.
Proof.
  intros Hn. destruct n as [|n']; [lia|].
  rewrite <- Pos.of_nat_succ, Zpos_P_of_succ_nat. lia.
Qed.

Lemma jaccard_range (T U : gset string) : (0 <= jaccard T U <= 1)%Q.
Proof.
  unfold jaccard. cbv zeta. rewrite filter_elem_of_inter.
  destruct (Nat.ltb_spec 0 (size (T ∪ U))) as [Hpos|Hz]; [|split; discriminate].
  apply ratio_bounds; [|exact Hpos].
  apply subseteq_size. intros x. rewrite elem_of_intersection, elem_of_union. tauto.
Qed.

Lemma jaccard_one (T U : gset string) :
  (jaccard T U == 1)%Q <-> T = U /\ T <> ∅.
Proof.
  unfold jaccard. cbv zeta. rewrite filter_elem_of_inter.
  destruct (Nat.ltb_spec 0 (size (T ∪ U))) as [Hpos|Hz].
  - unfold Qeq. cbn [Qnum Qden]. rewrite Z.mul_1_r, Z.mul_1_l, Pos_of_nat_Z by exact Hpos.
    split.
    + intros Heq. apply Nat2Z.inj in Heq.
      assert (Hsub : T ∩ U ⊆ T ∪ U).
      { intros x. rewrite elem_of_intersection, elem_of_union. tauto. }
      assert (Hsame : forall x, x ∈ T ∩ U <-> x ∈ T ∪ U).
      { apply set_subseteq_size_equiv; [exact Hsub | lia]. }
      assert (HTU : T = U).
      { apply set_eq. intros x. specialize (Hsame x).
        rewrite elem_of_intersection, elem_of_union in Hsame. tauto. }
      split; [exact HTU|].
      intros ->. subst U. rewrite union_idemp_L, size_empty in Hpos. lia.
    + intros [-> _]. rewrite intersection_idemp_L, union_idemp_L. reflexivity.
  - split.
    + intros H. vm_compute in H. discriminate.
    + intros [-> Hne]. exfalso. apply Hne.
      rewrite union_idemp_L in Hz. apply leibniz_equiv, size_empty_inv. lia.
Qed.

Lemma jaccard_zero (T U : gset string) :
  (jaccard T U == 0)%Q <-> T ∩ U = ∅.
Proof.
  unfold jaccard. cbv zeta. rewrite filter_elem_of_inter.
  destruct (Nat.ltb_spec 0 (size (T ∪ U))) as [Hpos|Hz].
  - unfold Qeq. cbn [Qnum Qden]. rewrite Z.mul_1_r, Z.mul_0_l.
    split.
    + intros Heq. apply leibniz_equiv, size_empty_inv. lia.
    + intros ->. rewrite size_empty. reflexivity.
  - split; [|reflexivity]. intros _.
    assert (Hall : forall x, x ∈ T ∪ U <-> x ∈ (∅ : gset string)).
    { apply size_empty_inv. lia. }
    apply set_eq. intros x. specialize (Hall x).
    pose proof (not_elem_of_empty (C:=gset string) x) as Hno.
    rewrite elem_of_intersection. rewrite elem_of_union in Hall. tauto.
Qed.

(** X1: the similarity of two diffs lies in [0,1]; it is 1 exactly when
    the two diffs have the same, non-empty, set of word tokens, and 0
    exactly when they share no token. *)
Theorem diff_similarity_range_and_extremes (A B : string) :
  (0 <= EE.calculateDiffSimilarity A B <= 1)%Q /\
  ((EE.calculateDiffSimilarity A B == 1)%Q <->
     EE.tokens A = EE.tokens B /\ EE.tokens A <> ∅) /\
  ((EE.calculateDiffSimilarity A B == 0)%Q <-> EE.tokens A ∩ EE.tokens B = ∅).
Proof.
  rewrite calculateDiffSimilarity_jaccard.
  split; [apply jaccard_range|]. split; [apply jaccard_one | apply jaccard_zero].
Qed.

(** X2: the similarity of two claims lies in [0,1]; it is 1 exactly when
    the two claims have the same set of lower-cased words, and 0 exactly
    when they share no word. *)
Theorem claim_similarity_range_and_extremes (A B : string) :
  (0 <= AM.calculateSimilarity A B <= 1)%Q /\
  ((AM.calculateSimilarity A B == 1)%Q <-> words A = words B) /\
  ((AM.calculateSimilarity A B == 0)%Q <-> words A ∩ words B = ∅).
Proof.
  rewrite calculateSimilarity_jaccard.
  split; [apply jaccard_range|]. split; [|apply jaccard_zero].
  rewrite jaccard_one. split; [tauto|]. intros Heq. split; [exact Heq|].
  intros He. pose proof (word_set_nonempty (toLowerCase A)) as Hpos.
  fold (words A) in Hpos. rewrite He, size_empty in Hpos. lia.
Qed.

Lemma diff_similarity_range_and_extremes_witness :
  (EE.calculateDiffSimilarity "x = 1" "1 = x" == 1)%Q.
Proof.
  apply (proj2 (proj1 (proj2 (diff_similarity_range_and_extremes "x = 1" "1 = x")))).
  split.
  - vm_compute. reflexivity.
  - intros H. apply (f_equal size) in H. vm_compute in H. discriminate.
Defined.

Lemma claim_similarity_range_and_extremes_witness :
  (AM.calculateSimilarity "Ship it" "ship  IT" == 1)%Q.
Proof.
  apply (proj2 (proj1 (proj2 (claim_similarity_range_and_extremes "Ship it" "ship  IT")))).
  vm_compute. reflexivity.
Defined.

(** ** Historical matcher: shape of the result *)

Lemma scanCommits_similarity (git : EE.Git) (diff : string) (commits : list string)
    (m : EE.HistoricalMatch) :
  In m (EE.scanCommits git diff commits) ->
  exists commitDiff, EE.similarity m = EE.calculateDiffSimilarity diff commitDiff.
Proof.
  induction commits as [|l ls IH]; simpl; [tauto|].
  destruct (EE.gitShow git _) as [out|]; simpl; [|tauto].
  destruct (Qgt_bool _ _); [|exact IH].
  intros [<-|Hin]; [|exact (IH Hin)].
  eexists. reflexivity.
Qed.

Lemma Sorted_firstn {A : Type} (R : A -> A -> Prop) (n : nat) (l : list A) :
  Sorted R l -> Sorted R (firstn n l).
Proof.
  revert l. induction n as [|n IH]; intros l Hs; [constructor|].
  destruct Hs as [|a l Hs Hhd]; simpl; [constructor|].
  constructor; [apply IH, Hs|].
  destruct Hhd as [|b l' Hab]; destruct n; simpl; constructor. exact Hab.
Qed.

Lemma firstn_In {A : Type} (n : nat) (l : list A) (x : A) :
  In x (firstn n l) -> In x l.
Proof.
  revert l. induction n as [|n IH]; intros [|a l]; simpl; try tauto.
  intros [->|Hin]; [left; reflexivity | right; exact (IH l Hin)].
Qed.

(** X3: [findSimilarChanges] returns at most ten matches, in descending
    order of similarity, each with a similarity above 0.3 and at most 1;
    when the log command fails it returns no match. *)
Theorem similar_changes_result_shape (git : EE.Git) (diff : string) :
  let result := EE.findSimilarChanges git diff in
  (List.length result <= 10)%nat /\
  Sorted descending result /\
  (forall m, In m result -> (0.3 < EE.similarity m)%Q /\ (EE.similarity m <= 1)%Q) /\
  (EE.gitLog git = None -> result = []).
Proof.
  cbv zeta. unfold EE.findSimilarChanges.
  split; [rewrite length_firstn; lia|].
  split; [apply Sorted_firstn, sortBySimilarity_sorted|].
  split.
  - intros m Hm. apply firstn_In in Hm.
    apply (Permutation_in _ (sortBySimilarity_perm _)) in Hm.
    rewrite candidateMatches_scan in Hm.
    split; [exact (scanCommits_above_threshold _ _ _ _ Hm)|].
    destruct (scanCommits_similarity _ _ _ _ Hm) as (d & ->).
    rewrite calculateDiffSimilarity_jaccard. apply jaccard_range.
  - intros Hlog. unfold EE.candidateMatches. rewrite Hlog. reflexivity.
Qed.

Lemma similar_changes_result_shape_witness :
  EE.findSimilarChanges noHistory "a b c" = [].
Proof.
  apply (proj2 (proj2 (proj2 (similar_changes_result_shape noHistory "a b c")))).
  reflexivity.
Defined.


(** ** Performance impact: consistency and escalation *)

Lemma app_singleton_not_nil {A : Type} (l : list A) (x : A) : (l ++ [x])%list <> [].
Proof. destruct l; discriminate. Qed.

Lemma analyzeChange_consistent (rf : string -> option string)
    (acc : EE.PerformanceImpact) (c : EE.Change) :
  impactConsistent acc -> impactConsistent (EE.analyzeChange rf acc c).
Proof.
  intros Hacc. pose proof Hacc as (Hc & Hm & Hi & Hch & Hih & Hmm).
  destruct (EE.type c) eqn:Et;
    [| |unfold EE.analyzeChange; rewrite Et; exact Hacc];
    unfold EE.analyzeChange; rewrite Et; fold (EE.getFileContent rf (EE.file c));
    generalize (EE.detectPerformanceAntiPatterns (EE.getFileContent rf (EE.file c)));
    intros [nl sio lao npo];
    cbv beta iota zeta delta [EE.nestedLoops EE.synchronousIO EE.largeArrayOperations
                              EE.nPlusOneQueries];
    destruct (Nat.ltb_spec 2 nl), (Nat.ltb_spec 0 sio), (Nat.ltb_spec 0 lao), npo;
    unfold impactConsistent;
    cbn [EE.cpuImpact EE.memoryImpact EE.ioImpact EE.estimatedLatencyChange
         EE.scalabilityIssues EE.optimizationOpportunities];
    repeat split; auto;
    try match goal with |- _ = _ -> _ => intros ? end;
    try apply app_singleton_not_nil;
    repeat match goal with
           | H : EE.cpuImpact acc = EE.high |- _ => apply Hch in H; destruct H
           | H : EE.ioImpact acc = EE.high |- _ => apply Hih in H
           | H : EE.memoryImpact acc = EE.medium |- _ => apply Hmm in H
           end;
    try assumption; try lia.
Qed.

Lemma noImpact_consistent : impactConsistent noImpact.
Proof. unfold impactConsistent, noImpact. cbn. repeat split; auto; discriminate. Qed.

Lemma fold_analyzeChange_consistent (rf : string -> option string) (cs : list EE.Change) :
  forall acc, impactConsistent acc ->
              impactConsistent (fold_left (EE.analyzeChange rf) cs acc).
Proof.
  induction cs as [|c cs IH]; intros acc Hacc; simpl; [exact Hacc|].
  apply IH, analyzeChange_consistent, Hacc.
Qed.

(** X4: in every result of [analyzePerformanceImpact] the CPU and I/O
    impacts are none or high and the memory impact none or medium (the
    level low never occurs); a high CPU impact comes with an estimated
    latency of at least 150 ms and a scalability issue, a high I/O impact
    with at least 100 ms, a medium memory impact with an optimization
    opportunity. *)
Theorem performance_impact_consistent
    (rf : string -> option string) (changes : list EE.Change) :
  impactConsistent (EE.analyzePerformanceImpact rf changes).
Proof.
  unfold EE.analyzePerformanceImpact. fold noImpact.
  apply fold_analyzeChange_consistent, noImpact_consistent.
Qed.

Lemma escalates_refl (r : EE.PerformanceImpact) : escalates r r.
Proof.
  unfold escalates. repeat split; try lia; exists []; rewrite app_nil_r; reflexivity.
Qed.

Lemma escalates_trans (a b c : EE.PerformanceImpact) :
  escalates a b -> escalates b c -> escalates a c.
Proof.
  intros (H1 & H2 & H3 & H4 & (m1 & H5) & (n1 & H6))
         (K1 & K2 & K3 & K4 & (m2 & K5) & (n2 & K6)).
  unfold escalates. repeat split; try lia.
  - exists (m1 ++ m2)%list. rewrite K5, H5, app_assoc. reflexivity.
  - exists (n1 ++ n2)%list. rewrite K6, H6, app_assoc. reflexivity.
Qed.

Lemma analyzeChange_escalates (rf : string -> option string)
    (acc : EE.PerformanceImpact) (c : EE.Change) :
  impactConsistent acc -> escalates acc (EE.analyzeChange rf acc c).
Proof.
  intros (_ & Hm & _).
  destruct (EE.type c) eqn:Et;
    [| |unfold EE.analyzeChange; rewrite Et; apply escalates_refl];
    unfold EE.analyzeChange; rewrite Et; fold (EE.getFileContent rf (EE.file c));
    generalize (EE.detectPerformanceAntiPatterns (EE.getFileContent rf (EE.file c)));
    intros [nl sio lao npo];
    cbv beta iota zeta delta [EE.nestedLoops EE.synchronousIO EE.largeArrayOperations
                              EE.nPlusOneQueries];
    destruct (Nat.ltb_spec 2 nl), (Nat.ltb_spec 0 sio), (Nat.ltb_spec 0 lao), npo;
    unfold escalates;
    cbn [EE.cpuImpact EE.memoryImpact EE.ioImpact EE.estimatedLatencyChange
         EE.scalabilityIssues EE.optimizationOpportunities];
    repeat split;
    try (destruct (EE.cpuImpact acc); cbn [impactRank]; lia);
    try (destruct Hm as [-> | ->]; cbn [impactRank]; lia);
    try (destruct (EE.ioImpact acc); cbn [impactRank]; lia);
    try lia;
    try (exists []; rewrite app_nil_r; reflexivity);
    try (eexists; rewrite <- ?app_assoc; reflexivity).
Qed.

Lemma fold_analyzeChange_escalates (rf : string -> option string) (cs : list EE.Change) :
  forall acc, impactConsistent acc ->
              escalates acc (fold_left (EE.analyzeChange rf) cs acc).
Proof.
  induction cs as [|c cs IH]; intros acc Hacc; simpl; [apply escalates_refl|].
  eapply escalates_trans; [apply analyzeChange_escalates, Hacc|].
  apply IH, analyzeChange_consistent, Hacc.
Qed.

(** X5: impact levels only escalate: analysing a change list followed by
    further changes gives levels at least as severe and a latency estimate
    at least as large as analysing the list alone, and keeps its issues and
    opportunities as the beginning of the new lists. *)
Theorem performance_impact_only_escalates
    (rf : string -> option string) (changes more : list EE.Change) :
  escalates (EE.analyzePerformanceImpact rf changes)
            (EE.analyzePerformanceImpact rf (changes ++ more)).
Proof.
  unfold EE.analyzePerformanceImpact. fold noImpact. rewrite fold_left_app.
  apply fold_analyzeChange_escalates, fold_analyzeChange_consistent, noImpact_consistent.
Qed.

(** X6: deleted files and files that cannot be read contribute nothing: a
    change list made only of such changes gives the neutral profile (no
    impact, latency 0, no issue, no opportunity). *)
Theorem performance_impact_neutral_without_content
    (rf : string -> option string) (changes : list EE.Change) :
  (forall c, In c changes -> EE.type c = EE.deleted \/ rf (EE.file c) = None) ->
  EE.analyzePerformanceImpact rf changes = noImpact.
Proof.
  unfold EE.analyzePerformanceImpact. fold noImpact. generalize noImpact.
  induction changes as [|c cs IH]; intros acc Hall; simpl; [reflexivity|].
  assert (Hstep : EE.analyzeChange rf acc c = acc).
  { unfold EE.analyzeChange, EE.getFileContent.
    destruct (Hall c (or_introl eq_refl)) as [Hd|Hn].
    - rewrite Hd. reflexivity.
    - rewrite Hn. destruct (EE.type c); reflexivity. }
  rewrite Hstep. apply IH. intros c' Hc'. apply Hall. right. exact Hc'.
Qed.

Lemma performance_impact_neutral_without_content_witness :
  EE.analyzePerformanceImpact proseStore
    [{| EE.file := "gone.ts"; EE.type := EE.deleted; EE.additions := 0;
        EE.deletions := 9; EE.patches := [] |};
     {| EE.file := "missing.ts"; EE.type := EE.added; EE.additions := 3;
        EE.deletions := 0; EE.patches := [] |}] = noImpact.
Proof.
  apply performance_impact_neutral_without_content.
  intros c [<-|[<-|[]]]; [left | right]; reflexivity.
Defined.


(** ** Code metrics *)

Lemma complexity_totals (rf : string -> option string) (paths : list string) :
  forall cy cg fn : nat,
    fold_left (fun '(cy, cg, fn) file =>
      let analysis := EE.analyzeCodeComplexity (EE.getFileContent rf file) in
      (cy + EE.a_cyclomatic analysis, cg + EE.a_cognitive analysis,
       fn + EE.a_functions analysis))%nat paths (cy, cg, fn)
    = (cy + pathsCounted rf paths, cg + cognitiveTotal rf paths,
       fn + functionsFound rf paths)%nat.
Proof.
  unfold pathsCounted, cognitiveTotal, functionsFound, fileAnalysis, list_sum.
  induction paths as [|p ps IH]; intros cy cg fn;
    cbn [fold_left map fold_right].
  - f_equal; [f_equal|]; lia.
  - cbv zeta. rewrite IH. f_equal; [f_equal|]; lia.
Qed.

Lemma pathsCounted_ge_files (rf : string -> option string) (paths : list string) :
  (List.length paths <= pathsCounted rf paths)%nat.
Proof.
  unfold pathsCounted, fileAnalysis, EE.analyzeCodeComplexity, list_sum.
  induction paths as [|p ps IH];
    cbn [map fold_right List.length EE.a_cyclomatic] in *; lia.
Qed.

Lemma functionsFound_files (rf : string -> option string) (paths : list string) :
  (0 < functionsFound rf paths)%nat -> (0 < List.length paths)%nat.
Proof. destruct paths; simpl; [unfold functionsFound; simpl; lia | lia]. Qed.

Lemma Qnat_pos (n : nat) : (0 < n)%nat -> (0 < Qnat n)%Q.
Proof. intros Hn. unfold Qnat, Qlt. simpl. lia. Qed.

Lemma Qsign_pos (q : Q) : (0 < q)%Q -> Qsign q = Lt.
Proof. intros H. unfold Qsign. apply Qlt_alt, H. Qed.

Lemma jmax_zero_fin (x : Q) : exists q : Q, jmax (Fin 0) (Fin x) = Fin q /\ (0 <= q)%Q.
Proof.
  unfold jmax. destruct (Qle_bool 0 x) eqn:E.
  - exists x. split; [reflexivity|]. apply Qle_bool_iff, E.
  - exists 0%Q. split; [reflexivity|]. apply Qle_refl.
Qed.

(** X7: the maintainability index returned by [calculateComplexity] is a
    finite number, not negative, exactly when at least one function is
    found in the files; then the average cyclomatic complexity is positive.
    When no function is found the average is 0 and the index is plus
    infinity. *)
Theorem maintainability_finite_iff_functions_found
    (rf : string -> option string) (ln : Q -> Q) (paths : list string) :
  let c := EE.calculateComplexity rf ln paths in
  ((0 < functionsFound rf paths)%nat ->
     (0 < EE.cyclomatic c)%Q /\
     exists q : Q, EE.maintainabilityIndex c = Fin q /\ (0 <= q)%Q) /\
  (functionsFound rf paths = 0%nat ->
     EE.cyclomatic c = 0%Q /\ EE.maintainabilityIndex c = PosInf).
Proof.
  cbv zeta. unfold EE.calculateComplexity.
  rewrite complexity_totals. cbn [Nat.add].
  split.
  - intros Hfn.
    destruct (Nat.ltb_spec 0 (functionsFound rf paths)) as [_|Hz]; [|lia].
    cbn [EE.cyclomatic EE.maintainabilityIndex].
    assert (Havg : (0 < Qnat (pathsCounted rf paths) / Qnat (functionsFound rf paths))%Q).
    { apply Qlt_shift_div_l; [apply Qnat_pos, Hfn|]. rewrite Qmult_0_l.
      apply Qnat_pos. pose proof (pathsCounted_ge_files rf paths).
      pose proof (functionsFound_files rf paths Hfn). lia. }
    split; [exact Havg|].
    unfold Math_log. rewrite (Qsign_pos _ Havg).
    cbn [jmul jsub jadd jneg]. apply jmax_zero_fin.
  - intros Hz. rewrite Hz. cbn [Nat.ltb Nat.leb EE.cyclomatic EE.maintainabilityIndex].
    split; reflexivity.
Qed.

Lemma maintainability_finite_iff_functions_found_witness :
  exists q : Q,
    EE.maintainabilityIndex
      (EE.calculateComplexity (fun _ => Some "function f() { if (x) { } }")
         (fun _ => 0%Q) ["a.js"]) = Fin q /\ (0 <= q)%Q.
Proof.
  refine (proj2 (proj1 (maintainability_finite_iff_functions_found
                          (fun _ => Some "function f() { if (x) { } }")
                          (fun _ => 0%Q) ["a.js"]) _)).
  vm_compute. lia.
Defined.


Lemma split_char_from_length (x : ascii) (s seg : list ascii) :
  (1 <= List.length (split_char_from x seg s))%nat.
Proof.
  revert seg. induction s as [|c s IH]; intros seg; simpl; [lia|].
  destruct (is_char x c); simpl; [lia | apply IH].
Qed.

Lemma filter_length_bound {A : Type} (f : A -> bool) (l : list A) :
  (List.length (List.filter f l) <= List.length l)%nat.
Proof. induction l as [|a l IH]; simpl; [lia|]. destruct (f a); simpl; lia. Qed.

Lemma size_totals (rf : string -> option string) (paths : list string) :
  forall l sl fn cl : nat,
    (sl <= l)%nat ->
    let '(l', sl', _, _) :=
      fold_left (fun '(l, sl, fn, cl) file =>
        let content := EE.getFileContent rf file in
        let lines := split_char "010" content in
        (l + List.length lines,
         sl + List.length (List.filter (fun line =>
                truthy (trim line) && negb (startsWith (trim line) "//")) lines),
         fn + count_matches EE.re_size_functions content,
         cl + count_matches EE.re_classes content))%nat
        paths (l, sl, fn, cl) in
    (l + List.length paths <= l')%nat /\ (sl' <= l')%nat.
Proof.
  induction paths as [|p ps IH]; intros l sl fn cl Hle; cbn [fold_left List.length].
  - lia.
  - cbv zeta.
    set (lines := split_char "010" (EE.getFileContent rf p)).
    set (kept := List.filter _ lines).
    pose proof (split_char_from_length "010" (chars (EE.getFileContent rf p)) []) as H1.
    fold (split_char "010" (EE.getFileContent rf p)) in H1. fold lines in H1.
    pose proof (filter_length_bound
                  (fun line => truthy (trim line) && negb (startsWith (trim line) "//"))
                  lines) as H2.
    fold kept in H2.
    specialize (IH (l + List.length lines)%nat (sl + List.length kept)%nat
                   (fn + count_matches EE.re_size_functions (EE.getFileContent rf p))%nat
                   (cl + count_matches EE.re_classes (EE.getFileContent rf p))%nat
                   ltac:(lia)).
    destruct (fold_left _ ps _) as [[[l' sl'] fn'] cl'].
    lia.
Qed.

(** X8: in the size metrics of [calculateSize] the file count is the
    number of paths given, every file counts for at least one line (also a
    file that is empty or cannot be read), and the source lines never
    exceed the lines. *)
Theorem size_metrics_bounds (rf : string -> option string) (paths : list string) :
  let s := EE.calculateSize rf paths in
  EE.files s = List.length paths /\
  (EE.files s <= EE.loc s)%nat /\
  (EE.sloc s <= EE.loc s)%nat.
Proof.
  cbv zeta. unfold EE.calculateSize.
  pose proof (size_totals rf paths 0 0 0 0 ltac:(lia)) as H.
  destruct (fold_left _ paths _) as [[[l' sl'] fn'] cl'].
  cbn [EE.files EE.loc EE.sloc]. lia.
Qed.

Lemma quality_totals (rf : string -> option string) (paths : list string) :
  forall smells debt : nat,
    let '(smells', debt') :=
      fold_left (fun '(smells, debt) file =>
        let content := EE.getFileContent rf file in
        let longFunctions := count_matches EE.re_long_function content in
        let deepNesting := count_matches EE.re_deep_nesting content in
        (smells + longFunctions + deepNesting,
         debt + longFunctions * 30 + deepNesting * 15))%nat
        paths (smells, debt) in
    (15 * smells' + debt <= debt' + 15 * smells)%nat /\
    (debt' + 30 * smells <= 30 * smells' + debt)%nat.
Proof.
  induction paths as [|p ps IH]; intros smells debt; cbn [fold_left].
  - lia.
  - cbv zeta.
    set (lf := count_matches EE.re_long_function (EE.getFileContent rf p)).
    set (dn := count_matches EE.re_deep_nesting (EE.getFileContent rf p)).
    specialize (IH (smells + lf + dn)%nat (debt + lf * 30 + dn * 15)%nat).
    destruct (fold_left _ ps _) as [smells' debt'].
    lia.
Qed.

(** X9: in the quality metrics of [analyzeQuality] the remediation time
    lies between 15 and 30 minutes per code smell (so it is 0 exactly when
    no smell is found), and the two duplication counts are always 0. *)
Theorem quality_debt_bounds (rf : string -> option string) (paths : list string) :
  let q := EE.analyzeQuality rf paths in
  (15 * EE.codeSmells q <= EE.technicalDebt q)%nat /\
  (EE.technicalDebt q <= 30 * EE.codeSmells q)%nat /\
  EE.duplicateLines q = 0%nat /\ EE.duplicateBlocks q = 0%nat.
Proof.
  cbv zeta. unfold EE.analyzeQuality.
  pose proof (quality_totals rf paths 0 0) as H.
  destruct (fold_left _ paths _) as [smells' debt'].
  cbn [EE.codeSmells EE.technicalDebt EE.duplicateLines EE.duplicateBlocks].
  repeat split; lia.
Qed.


(** ** Argument strength and metrics *)

Lemma clamp_range (x : Q) : (0 <= Math_max 0 (Math_min 1 x) <= 1)%Q.
Proof.
  unfold Math_max, Math_min.
  destruct (Qle_bool 1 x) eqn:E1.
  - destruct (Qle_bool 0 1) eqn:E0; [split; discriminate|]. discriminate.
  - destruct (Qle_bool 0 x) eqn:E0.
    + apply Qle_bool_iff in E0. split; [exact E0|].
      apply Qlt_le_weak, Qnot_le_lt. intros H. apply Qle_bool_iff in H. congruence.
    + split; [apply Qle_refl | discriminate].
Qed.

Lemma calculateArgumentStrength_range (this : AM.Miner) (arg : AM.ToulminArgument) :
  (0 <= AM.calculateArgumentStrength this arg <= 1)%Q.
Proof. unfold AM.calculateArgumentStrength. cbv zeta. apply clamp_range. Qed.


Lemma Qnat_succ (n : nat) : (Qnat (S n) == Qnat n + 1)%Q.
Proof.
  unfold Qnat. rewrite Nat2Z.inj_succ. unfold Z.succ. rewrite inject_Z_plus. reflexivity.
Qed.

Lemma strength_sum_bounds (l : list AM.ToulminArgument) :
  Forall (fun a => (0 <= AM.strength a <= 1)%Q) l ->
  forall acc : Q,
    (acc <= fold_left (fun sum arg => sum + AM.strength arg) l acc)%Q /\
    (fold_left (fun sum arg => sum + AM.strength arg) l acc
       <= acc + Qnat (List.length l))%Q.
Proof.
  induction 1 as [|a l Ha Hl IH]; intros acc; cbn [fold_left List.length].
  - change (Qnat 0) with 0%Q. split; lra.
  - destruct (IH (acc + AM.strength a)%Q) as [H1 H2].
    pose proof (Qnat_succ (List.length l)) as Hs. split; lra.
Qed.

(** X11: the average strength reported by [generateMetrics] is NaN when
    the miner holds no argument (0 divided by 0); otherwise it is a finite
    number in [0,1]. *)
Theorem average_strength_nan_or_unit (this : AM.Miner) :
  let metrics := fst (AM.generateMetrics this) in
  (AM.arguments this = [] -> AM.averageStrength metrics = NaN) /\
  (AM.arguments this <> [] ->
     exists q : Q, AM.averageStrength metrics = Fin q /\ (0 <= q <= 1)%Q).
Proof.
  cbv zeta. unfold AM.generateMetrics. cbn [fst AM.averageStrength].
  split.
  - intros ->. reflexivity.
  - intros Hne.
    set (all := map snd (map _ (AM.arguments this))).
    assert (Hall : Forall (fun a => (0 <= AM.strength a <= 1)%Q) all).
    { apply List.Forall_forall. intros a Ha. unfold all in Ha.
      rewrite map_map in Ha. apply in_map_iff in Ha.
      destruct Ha as ([k a0] & <- & _). cbn [snd AM.strength AM.with_strength].
      apply calculateArgumentStrength_range. }
    assert (Hlen : (0 < List.length all)%nat).
    { unfold all. rewrite !length_map. destruct (AM.arguments this); [congruence|simpl; lia]. }
    destruct (strength_sum_bounds all Hall 0%Q) as [H1 H2].
    unfold jdiv_nonneg. rewrite (Qsign_pos _ (Qnat_pos _ Hlen)).
    eexists. split; [reflexivity|].
    pose proof (Qnat_pos _ Hlen) as Hpos.
    split.
    + apply Qle_shift_div_l; [exact Hpos | lra].
    + apply Qle_shift_div_r; [exact Hpos | lra].
Qed.

Lemma average_strength_nan_or_unit_witness :
  AM.averageStrength (fst (AM.generateMetrics AM.newMiner)) = NaN.
Proof.
  apply (proj1 (average_strength_nan_or_unit AM.newMiner)). reflexivity.
Defined.

Lemma insertByStrength_perm (a : AM.ToulminArgument) (l : list AM.ToulminArgument) :
  Permutation (AM.insertByStrength a l) (a :: l).
Proof.
  induction l as [|y l IH]; simpl; [apply Permutation_refl|].
  destruct (Qle_bool _ _); [apply Permutation_refl|].
  apply perm_trans with (y :: a :: l); [apply perm_skip, IH | apply perm_swap].
Qed.

Lemma sortByStrength_perm (l : list AM.ToulminArgument) :
  Permutation (AM.sortByStrength l) l.
Proof.
  induction l as [|a l IH]; simpl; [apply perm_nil|].
  apply perm_trans with (a :: AM.sortByStrength l);
    [apply insertByStrength_perm | apply perm_skip, IH].
Qed.

Lemma insertByStrength_sorted (a : AM.ToulminArgument) (l : list AM.ToulminArgument) :
  StronglySorted stronger l -> StronglySorted stronger (AM.insertByStrength a l).
Proof.
  induction l as [|y l IH]; intros Hs; simpl.
  - repeat constructor.
  - inversion Hs as [|? ? Hs' Hall]; subst.
    destruct (Qle_bool (AM.strength y) (AM.strength a)) eqn:E.
    + apply Qle_bool_iff in E. constructor; [exact Hs|].
      constructor; [exact E|].
      apply List.Forall_forall. intros z Hz.
      pose proof (proj1 (List.Forall_forall _ _) Hall z Hz) as Hyz.
      unfold stronger in *. lra.
    + constructor; [apply IH, Hs'|].
      apply List.Forall_forall. intros z Hz.
      apply (Permutation_in _ (insertByStrength_perm a l)) in Hz.
      destruct Hz as [<-|Hz].
      * unfold stronger. apply Qlt_le_weak, Qnot_le_lt. intros Hle.
        apply Qle_bool_iff in Hle. congruence.
      * exact (proj1 (List.Forall_forall _ _) Hall z Hz).
Qed.

Lemma sortByStrength_sorted (l : list AM.ToulminArgument) :
  StronglySorted stronger (AM.sortByStrength l).
Proof.
  induction l as [|a l IH]; simpl; [constructor|].
  apply insertByStrength_sorted, IH.
Qed.

Lemma StronglySorted_app_inv {A : Type} (R : A -> A -> Prop) (l1 l2 : list A) :
  StronglySorted R (l1 ++ l2) ->
  StronglySorted R l1 /\ StronglySorted R l2 /\
  (forall a b, In a l1 -> In b l2 -> R a b).
Proof.
  induction l1 as [|x l1 IH]; simpl; intros Hs.
  - split; [constructor|]. split; [exact Hs|]. intros a b [].
  - inversion Hs as [|? ? Hs' Hall]; subst.
    destruct (IH Hs') as (H1 & H2 & H3).
    split.
    + constructor; [exact H1|].
      apply List.Forall_forall. intros z Hz.
      apply (proj1 (List.Forall_forall _ _) Hall). apply in_or_app. left. exact Hz.
    + split; [exact H2|].
      intros a b [<-|Ha] Hb.
      * apply (proj1 (List.Forall_forall _ _) Hall). apply in_or_app. right. exact Hb.
      * exact (H3 a b Ha Hb).
Qed.

Lemma StronglySorted_rev {A : Type} (R : A -> A -> Prop) (l : list A) :
  StronglySorted R l -> StronglySorted (fun a b => R b a) (rev l).
Proof.
  induction 1 as [|x l Hs IH Hall]; simpl; [constructor|].
  assert (Happ : forall l1 : list A,
            StronglySorted (fun a b => R b a) l1 ->
            Forall (fun z => R x z) l1 ->
            StronglySorted (fun a b => R b a) (l1 ++ [x])).
  { induction l1 as [|y l1 IH1]; simpl; intros Hs1 Hf.
    - repeat constructor.
    - inversion Hs1 as [|? ? Hs1' Hall1]; subst.
      inversion Hf as [|? ? Hxy Hf']; subst.
      constructor; [apply IH1; assumption|].
      apply Forall_app. split; [exact Hall1|]. constructor; [exact Hxy|constructor]. }
  apply Happ; [exact IH|].
  apply List.Forall_forall. intros z Hz. apply in_rev in Hz.
  exact (proj1 (List.Forall_forall _ _) Hall z Hz).
Qed.

(** X12: [generateMetrics] lists at most three strongest and at most three
    weakest arguments of the miner; the strongest are listed strongest
    first, the weakest weakest first; no argument left out of the strongest
    is stronger than a listed one, and none left out of the weakest is
    weaker than a listed one. *)
Theorem strongest_and_weakest_arguments (this : AM.Miner) :
  let metrics := fst (AM.generateMetrics this) in
  let all := map snd (AM.arguments (snd (AM.generateMetrics this))) in
  let strongest := AM.strongestArguments metrics in
  let weakest := AM.weakestArguments metrics in
  (List.length strongest <= 3)%nat /\ (List.length weakest <= 3)%nat /\
  StronglySorted stronger strongest /\ StronglySorted weaker weakest /\
  (forall a, In a strongest -> In a all) /\
  (forall a, In a weakest -> In a all) /\
  (forall a b, In a strongest -> In b all -> In b strongest \/ stronger a b) /\
  (forall a b, In a weakest -> In b all -> In b weakest \/ weaker a b).
Proof.
  cbv zeta. unfold AM.generateMetrics.
  cbn [fst snd AM.arguments AM.strongestArguments AM.weakestArguments].
  set (all := map snd (map _ (AM.arguments this))).
  set (sorted := AM.sortByStrength all).
  pose proof (sortByStrength_sorted all) as Hsorted. fold sorted in Hsorted.
  pose proof (sortByStrength_perm all) as Hperm. fold sorted in Hperm.
  unfold AM.lastn.
  set (n := (List.length sorted - 3)%nat).
  pose proof (firstn_skipn 3 sorted) as Hsplit3.
  pose proof (firstn_skipn n sorted) as Hsplitn.
  pose proof Hsorted as Hs3. rewrite <- Hsplit3 in Hs3.
  apply StronglySorted_app_inv in Hs3. destruct Hs3 as (Hf3 & _ & Hcross3).
  pose proof Hsorted as Hsn. rewrite <- Hsplitn in Hsn.
  apply StronglySorted_app_inv in Hsn. destruct Hsn as (_ & Hln & Hcrossn).
  split; [rewrite length_firstn; lia|].
  split; [rewrite length_rev, length_skipn; unfold n; lia|].
  split; [exact Hf3|].
  split; [exact (StronglySorted_rev _ _ Hln)|].
  split.
  { intros a Ha. apply (Permutation_in _ Hperm). rewrite <- Hsplit3.
    apply in_or_app. left. exact Ha. }
  split.
  { intros a Ha. apply in_rev in Ha. apply (Permutation_in _ Hperm). rewrite <- Hsplitn.
    apply in_or_app. right. exact Ha. }
  split.
  - intros a b Ha Hb. apply (Permutation_in _ (Permutation_sym Hperm)) in Hb.
    rewrite <- Hsplit3 in Hb. apply in_app_or in Hb.
    destruct Hb as [Hb|Hb]; [left; exact Hb | right; exact (Hcross3 a b Ha Hb)].
  - intros a b Ha Hb. apply in_rev in Ha.
    apply (Permutation_in _ (Permutation_sym Hperm)) in Hb.
    rewrite <- Hsplitn in Hb. apply in_app_or in Hb.
    destruct Hb as [Hb|Hb]; [right; exact (Hcrossn b a Hb Ha) | left].
    apply in_rev in Hb. exact Hb.
Qed.


Lemma strongest_and_weakest_arguments_witness :
  let metrics := fst (AM.generateMetrics parsedMiner) in
  exists a, In a (AM.strongestArguments metrics) /\
            In a (map snd (AM.arguments (snd (AM.generateMetrics parsedMiner)))).
Proof.
  cbv zeta.
  assert (Hin : exists a, In a (AM.strongestArguments (fst (AM.generateMetrics parsedMiner)))).
  { eexists. vm_compute. left. reflexivity. }
  destruct Hin as [a Ha]. exists a. split; [exact Ha|].
  exact (proj1 (proj2 (proj2 (proj2 (proj2
           (strongest_and_weakest_arguments parsedMiner))))) a Ha).
Defined.

(** ** Truncation of claims *)

Lemma length_str (l : list ascii) : String.length (str l) = List.length l.
Proof. induction l as [|c l IH]; simpl; [reflexivity | f_equal; exact IH]. Qed.

Lemma length_chars (s : string) : List.length (chars s) = String.length s.
Proof. induction s as [|c s IH]; simpl; [reflexivity | f_equal; exact IH]. Qed.

Lemma length_string_app (s t : string) :
  String.length (s ++ t) = (String.length s + String.length t)%nat.
Proof. induction s as [|c s IH]; simpl; [reflexivity | f_equal; exact IH]. Qed.

(** X13: [truncate] returns a text that fits the limit unchanged; a longer
    text is cut to exactly the limit, its last three characters being the
    ellipsis, provided the limit is at least 3; with a smaller limit a
    longer text becomes the bare ellipsis, which exceeds the limit. *)
Theorem truncate_length (text : string) (maxLength : nat) :
  ((String.length text <= maxLength)%nat -> AM.truncate text maxLength = text) /\
  ((maxLength < String.length text)%nat -> (3 <= maxLength)%nat ->
     String.length (AM.truncate text maxLength) = maxLength /\
     AM.truncate text maxLength = substring0 (maxLength - 3) text ++ "...") /\
  ((maxLength < String.length text)%nat -> (maxLength < 3)%nat ->
     AM.truncate text maxLength = "...").
Proof.
  unfold AM.truncate.
  destruct (Nat.leb_spec (String.length text) maxLength) as [Hle|Hgt].
  - split; [reflexivity|]. split; intros; lia.
  - split; [intros; lia|]. split.
    + intros _ H3. split; [|reflexivity].
      rewrite length_string_app. unfold substring0.
      rewrite length_str, length_firstn, length_chars. simpl. lia.
    + intros _ H3. replace (maxLength - 3)%nat with 0%nat by lia. reflexivity.
Qed.

Lemma truncate_length_witness :
  String.length (AM.truncate "We should approve this change because it is safe" 30) = 30%nat.
Proof.
  apply (proj1 (proj2 (truncate_length
           "We should approve this change because it is safe" 30))).
  - vm_compute. lia.
  - lia.
Defined.

(** ** Structure of the argument graph *)

Lemma analyzeRelationship_endpoints (a b : AM.ToulminArgument) (e : AM.ArgumentEdge) :
  AM.analyzeRelationship a b = Some e ->
  (AM.edge_from e = AM.id a /\ AM.edge_to e = AM.id b) \/
  (AM.edge_from e = AM.id b /\ AM.edge_to e = AM.id a).
Proof.
  unfold AM.analyzeRelationship.
  destruct (_ || _).
  - intros [= <-]. cbn. tauto.
  - cbv zeta. destruct (Qgt_bool _ _).
    + intros [= <-]. cbn. tauto.
    + destruct (AM.areConflicting a b); [|discriminate].
      intros [= <-]. cbn. tauto.
Qed.

Lemma pairEdges_endpoints (args : list AM.ToulminArgument) (e : AM.ArgumentEdge) :
  In e (AM.pairEdges args) ->
  In (AM.edge_from e) (map AM.id args) /\ In (AM.edge_to e) (map AM.id args).
Proof.
  induction args as [|a later IH]; simpl; [tauto|].
  rewrite in_app_iff. intros [Hin|Hin].
  - apply list_elem_of_In, list_elem_of_omap in Hin.
    destruct Hin as (b & Hb & Hrel). apply list_elem_of_In in Hb.
    pose proof (in_map AM.id _ _ Hb) as Hidb.
    destruct (analyzeRelationship_endpoints a b e Hrel) as [[-> ->]|[-> ->]]; tauto.
  - destruct (IH Hin). tauto.
Qed.

Lemma length_omap_bound {A B : Type} (f : A -> option B) (l : list A) :
  (List.length (omap f l) <= List.length l)%nat.
Proof.
  induction l as [|a l IH]; [simpl; lia|].
  cbn [omap list_omap]. fold (omap f l). destruct (f a); simpl; lia.
Qed.

Lemma pairEdges_count (args : list AM.ToulminArgument) :
  (2 * List.length (AM.pairEdges args) <= List.length args * (List.length args - 1))%nat.
Proof.
  induction args as [|a later IH]; [simpl; lia|].
  cbn [AM.pairEdges List.length]. rewrite length_app.
  pose proof (length_omap_bound (fun arg_j => AM.analyzeRelationship a arg_j) later) as Ho.
  revert IH Ho.
  generalize (List.length (omap (fun arg_j => AM.analyzeRelationship a arg_j) later)).
  generalize (List.length (AM.pairEdges later)).
  generalize (List.length later).
  intros n p o IH Ho. destruct n as [|n]; [lia|].
  replace (S (S n) - 1)%nat with (S n) by lia.
  replace (S n - 1)%nat with n in IH by lia. nia.
Qed.

Lemma built_node_ids (args : list AM.ToulminArgument) (this : AM.Miner) :
  map AM.node_id (AM.nodes (fst (AM.buildArgumentGraph args this))) = map AM.id args.
Proof.
  unfold AM.buildArgumentGraph. cbn [fst AM.nodes]. rewrite map_map. reflexivity.
Qed.

Lemma built_edges_endpoints (args : list AM.ToulminArgument) (this : AM.Miner)
    (e : AM.ArgumentEdge) :
  let g := fst (AM.buildArgumentGraph args this) in
  In e (AM.edges g) ->
  In (AM.edge_from e) (map AM.node_id (AM.nodes g)) /\
  In (AM.edge_to e) (map AM.node_id (AM.nodes g)).
Proof.
  cbv zeta. intros He. rewrite built_node_ids.
  apply pairEdges_endpoints. exact He.
Qed.

(** X14: the graph built by [buildArgumentGraph] has one node per
    argument, in the order given and under the argument's identifier; every
    edge joins the identifiers of two arguments of the list; and there is
    at most one edge per pair of positions, n(n-1)/2 edges at most. *)
Theorem graph_nodes_and_edges_well_formed
    (args : list AM.ToulminArgument) (this : AM.Miner) :
  let g := fst (AM.buildArgumentGraph args this) in
  map AM.node_id (AM.nodes g) = map AM.id args /\
  map AM.argument (AM.nodes g) = args /\
  (forall e, In e (AM.edges g) ->
     In (AM.edge_from e) (map AM.node_id (AM.nodes g)) /\
     In (AM.edge_to e) (map AM.node_id (AM.nodes g))) /\
  (2 * List.length (AM.edges g) <= List.length args * (List.length args - 1))%nat.
Proof.
  cbv zeta.
  split; [apply built_node_ids|].
  split; [unfold AM.buildArgumentGraph; cbn [fst AM.nodes]; rewrite map_map; apply map_id|].
  split; [intros e He; apply built_edges_endpoints, He|].
  apply pairEdges_count.
Qed.

Lemma graph_nodes_and_edges_well_formed_witness :
  let g := fst (AM.buildArgumentGraph
                  [sampleArgument "a1" "security" approveClaim;
                   sampleArgument "a2" "performance" rejectClaim] AM.newMiner) in
  In "a1" (map AM.node_id (AM.nodes g)) /\ In "a2" (map AM.node_id (AM.nodes g)).
Proof.
  cbv zeta.
  refine (proj1 (proj2 (proj2 (graph_nodes_and_edges_well_formed _ _)))
            {| AM.edge_from := "a1"; AM.edge_to := "a2";
               AM.edge_type := AM.undermines; AM.edge_strength := 0.7%Q |} _).
  vm_compute. left. reflexivity.
Defined.

Lemma findNode_present (g : AM.ArgumentGraph) (i : string) :
  In i (map AM.node_id (AM.nodes g)) -> exists n, AM.findNode g i = Some n.
Proof.
  intros Hin. unfold AM.findNode.
  destruct (find _ (AM.nodes g)) as [n|] eqn:E; [exists n; reflexivity|].
  apply in_map_iff in Hin. destruct Hin as (n & <- & Hn).
  pose proof (find_none _ _ E n Hn) as Hf. cbn in Hf.
  rewrite String.eqb_refl in Hf. discriminate.
Qed.

Lemma conflictPoints_count (this : AM.Miner) (es : list AM.ArgumentEdge) :
  (forall e, In e es ->
     In (AM.edge_from e) (map AM.node_id (AM.nodes (AM.graph this))) /\
     In (AM.edge_to e) (map AM.node_id (AM.nodes (AM.graph this)))) ->
  List.length
    (flat_map (fun edge =>
       if AM.EdgeType_eqb (AM.edge_type edge) AM.rebuts
          || AM.EdgeType_eqb (AM.edge_type edge) AM.undermines then
         match AM.findNode (AM.graph this) (AM.edge_from edge),
               AM.findNode (AM.graph this) (AM.edge_to edge) with
         | Some fromNode, Some toNode =>
             [AM.agent (AM.argument fromNode) ++ " vs " ++ AM.agent (AM.argument toNode)
                ++ ": " ++ AM.truncate (AM.claim (AM.argument fromNode)) 30]
         | _, _ => []
         end
       else []) es)
  = List.length (List.filter is_conflict es).
Proof.
  induction es as [|e es IH]; intros Hall; [reflexivity|].
  cbn [flat_map List.filter]. rewrite length_app.
  rewrite IH by (intros e' He'; apply Hall; right; exact He').
  unfold is_conflict at 2.
  destruct (_ || _); [|reflexivity].
  destruct (Hall e (or_introl eq_refl)) as [Hf Ht].
  destruct (findNode_present _ _ Hf) as [nf ->].
  destruct (findNode_present _ _ Ht) as [nt ->].
  reflexivity.
Qed.

(** X15: after [buildArgumentGraph], [generateMetrics] reports exactly one
    conflict point per rebuts or undermines edge of the graph, whatever
    arguments the miner holds. *)
Theorem conflict_points_one_per_conflict_edge
    (args : list AM.ToulminArgument) (this : AM.Miner) :
  let built := snd (AM.buildArgumentGraph args this) in
  List.length (AM.conflictPoints (fst (AM.generateMetrics built)))
  = List.length (List.filter is_conflict (AM.edges (AM.graph built))).
Proof.
  cbv zeta. unfold AM.generateMetrics. cbn [fst AM.conflictPoints].
  unfold AM.findConflictPoints. cbn [AM.graph].
  apply conflictPoints_count.
  intros e He. exact (built_edges_endpoints args this e He).
Qed.


(** ** Relationships between arguments *)

(** X16: two arguments with the same claim, where the later claim does
    not mention the earlier persona and the later argument's rebuttal does
    not quote the earlier claim, are joined by a supports edge of strength
    1 from the earlier to the later. *)
Theorem equal_claims_support (arg1 arg2 : AM.ToulminArgument) :
  AM.claim arg1 = AM.claim arg2 ->
  includes (AM.claim arg2) (AM.agent arg1) = false ->
  (forall r, AM.rebuttal arg2 = Some r ->
             includes r (substring0 20 (AM.claim arg1)) = false) ->
  exists e, AM.analyzeRelationship arg1 arg2 = Some e /\
            AM.edge_from e = AM.id arg1 /\ AM.edge_to e = AM.id arg2 /\
            AM.edge_type e = AM.supports /\ (AM.edge_strength e == 1)%Q.
Proof.
  intros Hclaim Hagent Hreb. unfold AM.analyzeRelationship.
  rewrite Hagent.
  assert (Hr : match AM.rebuttal arg2 with
               | Some r => includes r (substring0 20 (AM.claim arg1))
               | None => false
               end = false).
  { destruct (AM.rebuttal arg2) as [r|]; [apply Hreb; reflexivity | reflexivity]. }
  rewrite Hr. cbn [orb]. cbv zeta.
  assert (Hone : (AM.calculateSimilarity (AM.claim arg2) (AM.claim arg2) == 1)%Q).
  { rewrite calculateSimilarity_jaccard. apply jaccard_one. split; [reflexivity|].
    intros He. pose proof (word_set_nonempty (toLowerCase (AM.claim arg2))) as Hpos.
    fold (words (AM.claim arg2)) in Hpos. rewrite He, size_empty in Hpos. lia. }
  rewrite Hclaim.
  assert (Hgt : Qgt_bool (AM.calculateSimilarity (AM.claim arg2) (AM.claim arg2)) 0.7 = true).
  { apply Qgt_bool_iff. rewrite Hone. reflexivity. }
  rewrite Hgt. eexists. split; [reflexivity|].
  cbn [AM.edge_from AM.edge_to AM.edge_type AM.edge_strength].
  split; [reflexivity|]. split; [reflexivity|]. split; [reflexivity | exact Hone].
Qed.


Lemma equal_claims_support_witness :
  exists e,
    AM.analyzeRelationship (sampleArgument "a1" "security" approveClaim)
                           (sampleArgument "a2" "performance" approveClaim) = Some e /\
    AM.edge_type e = AM.supports /\ (AM.edge_strength e == 1)%Q.
Proof.
  destruct (equal_claims_support (sampleArgument "a1" "security" approveClaim)
              (sampleArgument "a2" "performance" approveClaim))
    as (e & He & _ & _ & Ht & Hs).
  - reflexivity.
  - vm_compute. reflexivity.
  - intros r Hr. discriminate Hr.
  - exists e. split; [exact He|]. split; [exact Ht | exact Hs].
Defined.

(** ** Evidence *)

(** X17: every evidence record made by [extractEvidence] is of one of five
    kinds: an inline code span (type code, confidence 0.9), a file
    reference (type code, source "file", confidence 0.95), a metric
    (confidence 0.85), an external citation (confidence 0.8) or a commit
    reference (type historical, source "git", confidence 0.9).  No record
    of type documentation is ever made. *)
Theorem extracted_evidence_kinds (text : string) (e : AM.Evidence) :
  In e (AM.extractEvidence text) ->
  ((AM.ev_type e = AM.code /\ AM.source e = "inline" /\ AM.confidence e = 0.9%Q) \/
   (AM.ev_type e = AM.code /\ AM.source e = "file" /\ AM.confidence e = 0.95%Q) \/
   (AM.ev_type e = AM.metric /\ AM.source e = "measurement" /\ AM.confidence e = 0.85%Q) \/
   (AM.ev_type e = AM.external /\ AM.confidence e = 0.8%Q) \/
   (AM.ev_type e = AM.historical /\ AM.source e = "git" /\ AM.confidence e = 0.9%Q)) /\
  AM.ev_type e <> AM.documentation.
Proof.
  unfold AM.extractEvidence. rewrite !in_app_iff, !in_map_iff.
  intros [H|[H|[H|[H|H]]]]; destruct H as (m & <- & _);
    cbn [AM.ev_type AM.source AM.confidence]; (split; [tauto | discriminate]).
Qed.

Lemma extracted_evidence_kinds_witness :
  AM.ev_type {| AM.ev_type := AM.metric; AM.content := "80%";
                AM.source := "measurement"; AM.confidence := 0.85%Q |}
  <> AM.documentation.
Proof.
  refine (proj2 (extracted_evidence_kinds cachingText _ _)).
  vm_compute. left. reflexivity.
Defined.





(** ** The matcher only moves forward *)

Lemma repeat_matcher_forward {A : Type}
    (m : mstate -> (mstate -> option A) -> option A) :
  (forall st k x, m st k = Some x ->
     exists st', k st' = Some x /\ (List.length (rest st') <= List.length (rest st))%nat) ->
  forall fuel lo hi greedy st k x,
    repeat_matcher m fuel lo hi greedy st k = Some x ->
    exists st', k st' = Some x /\ (List.length (rest st') <= List.length (rest st))%nat.
Proof.
  intros Hm. induction fuel as [|fuel IH]; intros lo hi greedy st k x; simpl; [discriminate|].
  assert (Hd : forall y,
            m st (fun st' =>
                    if (lo =? 0)%nat && (List.length (rest st') =? List.length (rest st))%nat
                    then None
                    else repeat_matcher m fuel (Nat.pred lo) (option_map Nat.pred hi)
                           greedy st' k) = Some y ->
            exists st', k st' = Some y /\
                        (List.length (rest st') <= List.length (rest st))%nat).
  { intros y Hy. apply Hm in Hy. destruct Hy as (st1 & Hk1 & Hl1).
    destruct (_ && _); [discriminate|].
    apply IH in Hk1. destruct Hk1 as (st2 & Hk2 & Hl2).
    exists st2. split; [exact Hk2 | lia]. }
  assert (Hk : forall y, k st = Some y ->
            exists st', k st' = Some y /\
                        (List.length (rest st') <= List.length (rest st))%nat).
  { intros y Hy. exists st. split; [exact Hy | lia]. }
  destruct hi as [[|h]|]; [apply Hk| |];
    (destruct (lo =? 0)%nat; [|apply Hd]);
    (destruct greedy;
     [ match goal with |- context [match ?t with Some _ => _ | None => _ end] =>
         destruct t as [y|] end;
       [intros [= <-]; apply Hd; reflexivity | apply Hk]
     | match goal with |- context [match ?t with Some _ => _ | None => _ end] =>
         destruct t as [y|] end;
       [intros [= <-]; apply Hk; reflexivity | apply Hd] ]).
Qed.

Lemma rmatch_forward {A : Type} (r : regex) :
  forall (st : mstate) (k : mstate -> option A) (x : A),
    rmatch r st k = Some x ->
    exists st', k st' = Some x /\ (List.length (rest st') <= List.length (rest st))%nat.
Proof.
  induction r as [|p|r1 IH1 r2 IH2|r1 IH1 r2 IH2|lo hi greedy r' IH|i r' IH|];
    intros st k x; cbn [rmatch].
  - intros H. exists st. split; [exact H | lia].
  - destruct (rest st) as [|c s'] eqn:E; [discriminate|].
    destruct (p c); [|discriminate].
    intros H. eexists. split; [exact H|]. simpl. lia.
  - intros H. apply IH1 in H. destruct H as (st1 & H1 & L1).
    apply IH2 in H1. destruct H1 as (st2 & H2 & L2).
    exists st2. split; [exact H2 | lia].
  - destruct (rmatch r1 st k) as [y|] eqn:E.
    + intros [= <-]. apply IH1, E.
    + apply IH2.
  - apply repeat_matcher_forward. intros st0 k0 x0. apply IH.
  - intros H. apply IH in H. destruct H as (st1 & H1 & L1).
    eexists. split; [exact H1|]. simpl. exact L1.
  - destruct (xorb _ _); [|discriminate].
    intros H. exists st. split; [exact H | lia].
Qed.

Lemma match_here_forward (r : regex) (p s : list ascii) (m : rmatch_result) :
  match_here r p s = Some m -> (List.length (rest (m_end m)) <= List.length s)%nat.
Proof.
  unfold match_here.
  destruct (rmatch r (MState p s []) Some) as [st'|] eqn:E; [|discriminate].
  intros [= <-]. cbn [m_end].
  apply rmatch_forward in E. destruct E as (st1 & [= ->] & L). exact L.
Qed.

Lemma split_from_pieces (r : regex) :
  forall (fuel : nat) (s p seg : list ascii) (piece : string),
    In piece (split_from fuel r p seg s) ->
    (String.length piece <= List.length seg + List.length s)%nat.
Proof.
  induction fuel as [|fuel IH]; intros s p seg piece; simpl; [tauto|].
  destruct s as [|c s'].
  - intros [<-|[]]. rewrite length_str, length_rev. lia.
  - destruct (match_here r p (c :: s')) as [m|] eqn:E.
    + pose proof (match_here_forward _ _ _ _ E) as L. simpl in L.
      destruct (_ && _).
      * intros H. apply IH in H. simpl in H. simpl. lia.
      * intros [<-|H].
        -- rewrite length_str, length_rev. lia.
        -- apply IH in H. simpl in H. simpl. lia.
    + intros H. apply IH in H. simpl in H. simpl. lia.
Qed.

Lemma split_pieces (r : regex) (s piece : string) :
  In piece (split r s) -> (String.length piece <= String.length s)%nat.
Proof.
  unfold split. destruct (chars s) as [|c l] eqn:E.
  - destruct (test r s); [intros []|]. intros [<-|[]]. lia.
  - intros H. apply split_from_pieces in H.
    rewrite <- (length_chars s), E. simpl in H. exact H.
Qed.

Lemma drop_space_length (l : list ascii) :
  (List.length (drop_space l) <= List.length l)%nat.
Proof.
  induction l as [|c l IH]; simpl; [lia|]. destruct (is_space c); simpl; lia.
Qed.

Lemma trim_length (s : string) : (String.length (trim s) <= String.length s)%nat.
Proof.
  unfold trim. rewrite length_str, length_rev.
  pose proof (drop_space_length (rev (drop_space (chars s)))) as H1.
  pose proof (drop_space_length (chars s)) as H2.
  rewrite length_rev in H1. rewrite length_chars in H2. lia.
Qed.

(** ** Argument parser *)

Lemma sections_of_marker (marker : regex) (sections : list string) (s : string) :
  In s (flat_map (fun section =>
          List.filter (fun p => (50 <? String.length (trim p))%nat) (split marker section))
          sections) ->
  (50 < String.length (trim s))%nat /\
  exists section, In section sections /\ (String.length s <= String.length section)%nat.
Proof.
  intros H. apply in_flat_map in H. destruct H as (section & Hsec & Hs).
  apply filter_In in Hs. destruct Hs as [Hpiece Hlen].
  split; [apply Nat.ltb_lt, Hlen|].
  exists section. split; [exact Hsec | apply split_pieces with marker, Hpiece].
Qed.

(** X19: every section kept by [splitIntoSections] has more than 50
    characters after trimming and is no longer than the whole text; hence
    a text of at most 50 characters has no section. *)
Theorem sections_longer_than_fifty (output : string) :
  (forall s, In s (AM.splitIntoSections output) ->
     (50 < String.length (trim s))%nat /\ (String.length s <= String.length output)%nat) /\
  ((String.length output <= 50)%nat -> AM.splitIntoSections output = []).
Proof.
  assert (Hall : forall s, In s (AM.splitIntoSections output) ->
            (50 < String.length (trim s))%nat /\
            (String.length s <= String.length output)%nat).
  { intros s Hs. unfold AM.splitIntoSections in Hs. cbn [fold_left] in Hs.
    apply sections_of_marker in Hs. destruct Hs as (H50 & s3 & Hs3 & L3).
    apply sections_of_marker in Hs3. destruct Hs3 as (_ & s2 & Hs2 & L2).
    apply sections_of_marker in Hs2. destruct Hs2 as (_ & s1 & Hs1 & L1).
    destruct Hs1 as [<-|[]]. split; [exact H50 | lia]. }
  split; [exact Hall|].
  intros Hshort. destruct (AM.splitIntoSections output) as [|s l] eqn:E; [reflexivity|].
  destruct (Hall s (or_introl eq_refl)) as [H50 Hle].
  pose proof (trim_length s). lia.
Qed.

Lemma sections_longer_than_fifty_witness :
  AM.splitIntoSections "Claim: Use caching." = [].
Proof.
  apply (proj2 (sections_longer_than_fifty "Claim: Use caching.")).
  vm_compute. lia.
Defined.


Section ParserProperties.

Variable randomUUID : nat -> string.
Variable dateNow : nat -> Z.
Variable agentName : string.

Lemma extractToulminComponents_some (section : string) (n : nat) (arg : AM.ToulminArgument) :
  AM.extractToulminComponents randomUUID dateNow section agentName n = Some arg ->
  parsedAs randomUUID agentName n arg.
Proof.
  unfold AM.extractToulminComponents. cbv zeta.
  match goal with
  | |- (if negb (truthy ?c) then _ else _) = _ -> _ => destruct (truthy c) eqn:E
  end; cbn [negb]; [|discriminate].
  intros [= <-]. unfold parsedAs. cbn. repeat split. exact E.
Qed.

Lemma map_set_fresh (k : string) (v : AM.ToulminArgument)
    (m : list (string * AM.ToulminArgument)) :
  ~ In k (map fst m) -> AM.map_set k v m = (m ++ [(k, v)])%list.
Proof.
  induction m as [|[k' v'] m IH]; simpl; intros Hk; [reflexivity|].
  destruct (String.eqb_spec k k') as [->|Hne]; [tauto|].
  f_equal. apply IH. tauto.
Qed.

Lemma parse_fold (sections : list string) :
  forall (args0 : list AM.ToulminArgument) (this0 : AM.Miner),
    let r :=
      fold_left (fun '(args, this) section =>
        match AM.extractToulminComponents randomUUID dateNow section agentName
                (AM.created this) with
        | Some arg =>
            ((args ++ [arg])%list,
             {| AM.arguments := AM.map_set (AM.id arg) arg (AM.arguments this);
                AM.graph := AM.graph this;
                AM.created := S (AM.created this) |})
        | None => (args, this)
        end) sections (args0, this0) in
    exists new : list AM.ToulminArgument,
      fst r = (args0 ++ new)%list /\
      (List.length new <= List.length sections)%nat /\
      AM.created (snd r) = (AM.created this0 + List.length new)%nat /\
      AM.graph (snd r) = AM.graph this0 /\
      (forall i arg, nth_error new i = Some arg -> parsedAs randomUUID agentName (AM.created this0 + i) arg) /\
      ((forall i j, (AM.created this0 <= i)%nat -> (i < j)%nat ->
                    randomUUID i <> randomUUID j) ->
       (forall i, (AM.created this0 <= i)%nat ->
                  ~ In (randomUUID i) (map fst (AM.arguments this0))) ->
       AM.arguments (snd r)
       = (AM.arguments this0 ++ map (fun a => (AM.id a, a)) new)%list).
Proof.
  induction sections as [|section sections IH]; intros args0 this0; cbn [fold_left].
  - cbv zeta. exists []. cbn [fst snd List.length map]. rewrite !app_nil_r, Nat.add_0_r.
    split; [reflexivity|]. split; [lia|]. split; [reflexivity|]. split; [reflexivity|].
    split; [intros [|i] a0 H0; discriminate H0 | intros _ _; reflexivity].
  - destruct (AM.extractToulminComponents randomUUID dateNow section agentName
                (AM.created this0)) as [arg|] eqn:E.
    + pose proof (extractToulminComponents_some _ _ _ E) as Hwf.
      specialize (IH (args0 ++ [arg])%list
                     {| AM.arguments := AM.map_set (AM.id arg) arg (AM.arguments this0);
                        AM.graph := AM.graph this0;
                        AM.created := S (AM.created this0) |}).
      cbv zeta in IH |- *.
      destruct IH as (new & Hargs & Hlen & Hcr & Hg & Hwfs & Hmap).
      cbn [AM.created AM.graph AM.arguments] in *.
      exists (arg :: new). cbn [List.length map].
      split; [rewrite Hargs, <- app_assoc; reflexivity|].
      split; [lia|]. split; [lia|]. split; [exact Hg|].
      split.
      * intros [|i] a Ha; cbn [nth_error] in Ha.
        -- injection Ha as <-. rewrite Nat.add_0_r. exact Hwf.
        -- replace (AM.created this0 + S i)%nat with (S (AM.created this0) + i)%nat by lia.
           exact (Hwfs i a Ha).
      * intros Hinj Hfresh.
        destruct Hwf as (Hid & _).
        assert (Hnew : ~ In (AM.id arg) (map fst (AM.arguments this0))).
        { rewrite Hid. apply Hfresh. lia. }
        rewrite Hmap.
        -- rewrite (map_set_fresh _ _ _ Hnew), <- app_assoc. reflexivity.
        -- intros i j Hi Hij. apply Hinj; lia.
        -- intros i Hi. rewrite (map_set_fresh _ _ _ Hnew), map_app, in_app_iff.
           cbn [map fst In]. intros [Hin|[Heq|[]]].
           ++ apply (Hfresh i); [lia | exact Hin].
           ++ rewrite Hid in Heq. apply (Hinj (AM.created this0) i); [lia | lia | exact Heq].
    + specialize (IH args0 this0). cbv zeta in IH |- *.
      destruct IH as (new & Hargs & Hlen & Hcr & Hg & Hwfs & Hmap).
      exists new. cbn [List.length].
      split; [exact Hargs|]. split; [lia|]. split; [exact Hcr|]. split; [exact Hg|].
      split; [exact Hwfs | exact Hmap].
Qed.

(** X20: every argument returned by [parseAgentOutput] carries the persona
    given, a non-empty claim, strength 0 and no rebuttal, and the i-th of
    them the identifier the system handed out i-th after those made
    earlier; there are at most as many as sections, the miner's counter
    advances by their number, its graph is untouched, and a text of at most
    50 characters yields no argument. *)
Theorem parsed_arguments_well_formed (output : string) (this : AM.Miner) :
  let args := fst (AM.parseAgentOutput randomUUID dateNow agentName output this) in
  let this' := snd (AM.parseAgentOutput randomUUID dateNow agentName output this) in
  (forall i arg, nth_error args i = Some arg ->
     AM.id arg = randomUUID (AM.created this + i) /\ AM.agent arg = agentName /\
     truthy (AM.claim arg) = true /\ AM.strength arg = 0%Q /\ AM.rebuttal arg = None) /\
  (List.length args <= List.length (AM.splitIntoSections output))%nat /\
  AM.created this' = (AM.created this + List.length args)%nat /\
  AM.graph this' = AM.graph this /\
  ((String.length output <= 50)%nat -> args = []).
Proof.
  cbv zeta. unfold AM.parseAgentOutput.
  destruct (parse_fold (AM.splitIntoSections output) [] this)
    as (new & Hargs & Hlen & Hcr & Hg & Hwfs & _).
  cbv zeta in Hargs, Hcr, Hg. cbn [app] in Hargs.
  rewrite Hargs, Hcr, Hg.
  split; [exact Hwfs|]. split; [exact Hlen|]. split; [reflexivity|]. split; [reflexivity|].
  intros Hshort.
  assert (Hnone : AM.splitIntoSections output = []).
  { destruct (AM.splitIntoSections output) as [|s l] eqn:E; [reflexivity|].
    pose proof (in_eq s l) as Hin. rewrite <- E in Hin.
    unfold AM.splitIntoSections in Hin. cbn [fold_left] in Hin.
    apply sections_of_marker in Hin. destruct Hin as (H50 & s3 & Hs3 & L3).
    apply sections_of_marker in Hs3. destruct Hs3 as (_ & s2 & Hs2 & L2).
    apply sections_of_marker in Hs2. destruct Hs2 as (_ & s1 & Hs1 & L1).
    destruct Hs1 as [<-|[]]. pose proof (trim_length s). lia. }
  rewrite Hnone in Hlen. destruct new; [reflexivity | simpl in Hlen; lia].
Qed.

(** X21: when the identifiers handed out from now on are pairwise distinct
    and none of them is a key of the miner's map, [parseAgentOutput] appends
    the returned arguments to the map, each under its identifier and in the
    order returned, and leaves the earlier entries alone. *)
Theorem parsed_arguments_appended_to_map (output : string) (this : AM.Miner) :
  (forall i j, (AM.created this <= i)%nat -> (i < j)%nat -> randomUUID i <> randomUUID j) ->
  (forall i, (AM.created this <= i)%nat ->
             ~ In (randomUUID i) (map fst (AM.arguments this))) ->
  let args := fst (AM.parseAgentOutput randomUUID dateNow agentName output this) in
  let this' := snd (AM.parseAgentOutput randomUUID dateNow agentName output this) in
  AM.arguments this' = (AM.arguments this ++ map (fun a => (AM.id a, a)) args)%list.
Proof.
  intros Hinj Hfresh. cbv zeta. unfold AM.parseAgentOutput.
  destruct (parse_fold (AM.splitIntoSections output) [] this)
    as (new & Hargs & _ & _ & _ & _ & Hmap).
  cbv zeta in Hargs, Hmap. cbn [app] in Hargs.
  rewrite Hargs. apply Hmap; assumption.
Qed.

End ParserProperties.


Lemma parsed_arguments_well_formed_witness :
  fst (AM.parseAgentOutput (fun _ => "uuid-0") (fun _ => 0%Z) "performance"
         "Claim: Use caching." AM.newMiner) = [].
Proof.
  apply (proj2 (proj2 (proj2 (proj2
           (parsed_arguments_well_formed (fun _ => "uuid-0") (fun _ => 0%Z) "performance"
              "Claim: Use caching." AM.newMiner))))).
  vm_compute. lia.
Defined.

Lemma unaryId_distinct (i j : nat) : (i < j)%nat -> unaryId i <> unaryId j.
Proof.
  intros Hij Heq. apply (f_equal String.length) in Heq.
  unfold unaryId in Heq. rewrite !length_str, !repeat_length in Heq. lia.
Qed.

Lemma parsed_arguments_appended_to_map_witness :
  let r := AM.parseAgentOutput unaryId (fun _ => 0%Z) "performance" cachingText AM.newMiner in
  AM.arguments (snd r) = map (fun a => (AM.id a, a)) (fst r).
Proof.
  cbv zeta.
  refine (parsed_arguments_appended_to_map unaryId (fun _ => 0%Z) "performance"
            cachingText AM.newMiner _ _).
  - intros i j _ Hij. exact (unaryId_distinct i j Hij).
  - intros i _ [].
Defined.

(** ** Risk assessment: summary and monotonicity *)

(** X22: the summary of a risk assessment always begins with the overall
    level, "Overall risk: <level>. Key concerns:"; the fallback text "None
    identified" is never returned, also when no dimension reaches 7. *)
Theorem risk_summary_never_falls_back (data : CB.RiskData) :
  let r := CB.calculateRiskAssessment data in
  startsWith (CB.summary r)
    ("Overall risk: " ++ CB.level_name (CB.overall r) ++ ". Key concerns:") = true /\
  CB.summary r <> "None identified".
Proof.
  cbv zeta. unfold CB.calculateRiskAssessment.
  cbn [CB.summary CB.overall].
  destruct (CB.overallLevel _);
    destruct (Qle_bool 7 _), (Qle_bool 7 _), (Qle_bool 7 _), (Qle_bool 7 _);
    (split; [vm_compute; reflexivity | vm_compute; discriminate]).
Qed.

Lemma overallLevel_monotone (a b : Q) :
  (a <= b)%Q -> (levelRank (CB.overallLevel a) <= levelRank (CB.overallLevel b))%nat.
Proof.
  intros Hab. unfold CB.overallLevel.
  destruct (Qle_bool 8 a) eqn:A8; destruct (Qle_bool 6 a) eqn:A6;
    destruct (Qle_bool 4 a) eqn:A4;
    destruct (Qle_bool 8 b) eqn:B8; destruct (Qle_bool 6 b) eqn:B6;
    destruct (Qle_bool 4 b) eqn:B4; cbn [levelRank]; try lia; exfalso;
    repeat match goal with
           | H : Qle_bool _ _ = true |- _ => apply Qle_bool_iff in H
           | H : Qle_bool ?x ?y = false |- _ =>
               assert (~ (x <= y)%Q) by (rewrite <- Qle_bool_iff; congruence); clear H
           end; lra.
Qed.

Lemma Math_min_monotone (c x y : Q) : (x <= y)%Q -> (Math_min c x <= Math_min c y)%Q.
Proof.
  intros Hxy. unfold Math_min.
  destruct (Qle_bool c x) eqn:Ex; destruct (Qle_bool c y) eqn:Ey;
    repeat match goal with
           | H : Qle_bool _ _ = true |- _ => apply Qle_bool_iff in H
           | H : Qle_bool ?a ?b = false |- _ =>
               assert (~ (a <= b)%Q) by (rewrite <- Qle_bool_iff; congruence); clear H
           end; lra.
Qed.

Lemma Qnat_monotone (m n : nat) : (m <= n)%nat -> (Qnat m <= Qnat n)%Q.
Proof. intros H. unfold Qnat, Qle. simpl. lia. Qed.

(** X23: more security findings never lower a risk assessment: if one
    scan has at least as many findings of every severity as another, then
    on the same remaining inputs the security score and the overall level
    are at least as high. *)
Theorem more_findings_never_lower_risk (data : CB.RiskData) (scan scan' : CB.SecurityScan) :
  (CB.critical scan <= CB.critical scan')%nat ->
  (CB.high scan <= CB.high scan')%nat ->
  (CB.medium scan <= CB.medium scan')%nat ->
  (CB.low scan <= CB.low scan')%nat ->
  let r := CB.calculateRiskAssessment (withScan data scan) in
  let r' := CB.calculateRiskAssessment (withScan data scan') in
  (CB.security r <= CB.security r')%Q /\
  (levelRank (CB.overall r) <= levelRank (CB.overall r'))%nat.
Proof.
  intros Hc Hh Hm Hl. cbv zeta. unfold CB.calculateRiskAssessment, withScan.
  cbn [CB.securityScan CB.codeMetrics CB.performanceImpact CB.changedFiles
       CB.security CB.overall].
  apply Qnat_monotone in Hc, Hh, Hm, Hl.
  assert (Hsec : (Math_min 10 (Qnat (CB.critical scan) * 4 + Qnat (CB.high scan) * 2
                               + Qnat (CB.medium scan) * 1 + Qnat (CB.low scan) * 0.5)
                  <= Math_min 10 (Qnat (CB.critical scan') * 4 + Qnat (CB.high scan') * 2
                                  + Qnat (CB.medium scan') * 1 + Qnat (CB.low scan') * 0.5))%Q).
  { apply Math_min_monotone. lra. }
  split; [exact Hsec|].
  apply overallLevel_monotone.
  apply Qmult_le_compat_r; [|discriminate]. lra.
Qed.

Lemma more_findings_never_lower_risk_witness :
  (levelRank (CB.overall (CB.calculateRiskAssessment
      (withScan sampleData {| CB.vulnerabilities := 0; CB.critical := 0; CB.high := 0;
                              CB.medium := 0; CB.low := 0 |})))
   <= levelRank (CB.overall (CB.calculateRiskAssessment
      (withScan sampleData {| CB.vulnerabilities := 9; CB.critical := 5; CB.high := 2;
                              CB.medium := 1; CB.low := 1 |}))))%nat.
Proof.
  refine (proj2 (more_findings_never_lower_risk sampleData _ _ _ _ _ _)); simpl; lia.
Defined.


(** ** Security scanner *)

Lemma lineFindings_In (lines : list string) :
  forall (n : nat) (ln : nat) (text : string) (p : EE.Pattern) (m : rmatch_result),
    In (ln, text, p, m) (EE.lineFindings n lines) ->
    (n <= ln < n + List.length lines)%nat /\ In p EE.patterns /\
    nth_error lines (ln - n) = Some text /\
    In m (match_all (EE.p_regex p) text).
Proof.
  induction lines as [|l lines IH]; intros n ln text p m; cbn [EE.lineFindings]; [intros []|].
  rewrite in_app_iff. intros [H|H].
  - apply in_flat_map in H. destruct H as (p' & Hp' & H).
    apply in_map_iff in H. destruct H as (m' & [= <- <- <- <-] & Hm').
    cbn [List.length]. rewrite Nat.sub_diag. repeat split; try lia; assumption.
  - apply IH in H. destruct H as (Hr & Hp & Hn & Hm). cbn [List.length].
    split; [lia|]. split; [exact Hp|]. split; [|exact Hm].
    replace (ln - n)%nat with (S (ln - S n)) by lia. exact Hn.
Qed.

(** X24: every issue reported by [scanSecurityIssues] carries the file
    label given and a line number between 1 and the number of lines of the
    code; its type, severity, weakness reference and fix suggestion are
    those of one of the five rows of the table, so no issue has severity
    low and none gets the generic fix suggestion. *)
Theorem security_issues_follow_table
    (randomUUID : nat -> string) (n0 : nat) (code filename : string)
    (i : EE.SecurityIssue) :
  In i (EE.scanSecurityIssues randomUUID n0 code filename) ->
  EE.issue_file i = filename /\
  (1 <= EE.line i <= List.length (split_char "010" code))%nat /\
  ((EE.issue_type i = "SQL Injection" /\ EE.severity i = EE.sev_critical /\
    EE.cwe i = Some "CWE-89" /\
    EE.fixSuggestion i = Some "Use parameterized queries or prepared statements") \/
   (EE.issue_type i = "Command Injection" /\ EE.severity i = EE.sev_critical /\
    EE.cwe i = Some "CWE-78" /\
    EE.fixSuggestion i = Some "Validate and sanitize input, use safe APIs") \/
   (EE.issue_type i = "XSS" /\ EE.severity i = EE.sev_high /\
    EE.cwe i = Some "CWE-79" /\
    EE.fixSuggestion i = Some "Use textContent instead of innerHTML, escape user input") \/
   (EE.issue_type i = "Hardcoded Secret" /\ EE.severity i = EE.sev_high /\
    EE.cwe i = Some "CWE-798" /\
    EE.fixSuggestion i = Some "Use environment variables or secret management service") \/
   (EE.issue_type i = "Weak Crypto" /\ EE.severity i = EE.sev_medium /\
    EE.cwe i = Some "CWE-327" /\
    EE.fixSuggestion i = Some "Use strong algorithms like AES-256, SHA-256")) /\
  EE.severity i <> EE.sev_low.
Proof.
  unfold EE.scanSecurityIssues. cbv zeta. intros Hin.
  apply list_elem_of_In, elem_of_lookup_imap_1 in Hin.
  destruct Hin as (k & [[[ln text] p] m] & -> & Hk).
  apply list_elem_of_lookup_2, list_elem_of_In, lineFindings_In in Hk.
  destruct Hk as (Hr & Hp & _ & _).
  cbn [EE.issue_file EE.line EE.issue_type EE.severity EE.cwe EE.fixSuggestion].
  split; [reflexivity|]. split; [lia|].
  unfold EE.patterns in Hp. cbn [In] in Hp.
  destruct Hp as [<-|[<-|[<-|[<-|[<-|[]]]]]];
    cbn [EE.p_name EE.p_severity EE.p_cwe];
    (split; [|discriminate]).
  - left. repeat split.
  - right; left. repeat split.
  - right; right; left. repeat split.
  - right; right; right; left. repeat split.
  - right; right; right; right. repeat split.
Qed.

Lemma lineFindings_sorted (lines : list string) :
  forall n : nat,
    StronglySorted (fun x y => (findingLine x <= findingLine y)%nat)
                   (EE.lineFindings n lines).
Proof.
  induction lines as [|l lines IH]; intros n; cbn [EE.lineFindings]; [constructor|].
  set (here := flat_map _ EE.patterns).
  assert (Hhere : forall x, In x here -> findingLine x = n).
  { intros x Hx. apply in_flat_map in Hx. destruct Hx as (p & _ & Hx).
    apply in_map_iff in Hx. destruct Hx as (m & <- & _). reflexivity. }
  assert (Hlater : forall y, In y (EE.lineFindings (S n) lines) -> (S n <= findingLine y)%nat).
  { intros [[[ln text] p] m] Hy. apply lineFindings_In in Hy. cbn. lia. }
  clearbody here. induction here as [|x here IHh]; [apply IH|].
  cbn [app]. constructor.
  - apply IHh. intros y Hy. apply Hhere. right. exact Hy.
  - apply List.Forall_forall. intros y Hy. rewrite (Hhere x (or_introl eq_refl)).
    apply in_app_or in Hy. destruct Hy as [Hy|Hy].
    + rewrite (Hhere y (or_intror Hy)). lia.
    + apply Hlater in Hy. lia.
Qed.

Lemma imap_sorted {A B : Type} (R : A -> A -> Prop) (R' : B -> B -> Prop) (l : list A) :
  forall f : nat -> A -> B,
    (forall i j x y, R x y -> R' (f i x) (f j y)) ->
    StronglySorted R l -> StronglySorted R' (imap f l).
Proof.
  induction l as [|x l IH]; intros f Hf Hs; [constructor|].
  inversion Hs as [|? ? Hs' Hall]; subst. rewrite imap_cons. constructor.
  - apply IH; [|exact Hs']. intros i j a b Hab. apply Hf, Hab.
  - apply List.Forall_forall. intros y Hy.
    apply list_elem_of_In, elem_of_lookup_imap_1 in Hy.
    destruct Hy as (k & z & -> & Hz). apply Hf.
    apply (proj1 (List.Forall_forall _ _) Hall).
    apply list_elem_of_In. exact (list_elem_of_lookup_2 _ _ _ Hz).
Qed.

Lemma nth_error_lookup {A : Type} (l : list A) (k : nat) : nth_error l k = l !! k.
Proof. revert k. induction l as [|a l IH]; intros [|k]; cbn; auto. Qed.

(** X25: [scanSecurityIssues] reports the issues in the order of their
    lines, and the k-th issue reported carries the k-th identifier handed
    out. *)
Theorem security_issues_in_line_order
    (randomUUID : nat -> string) (n0 : nat) (code filename : string) :
  let issues := EE.scanSecurityIssues randomUUID n0 code filename in
  StronglySorted (fun a b => (EE.line a <= EE.line b)%nat) issues /\
  (forall k i, nth_error issues k = Some i -> EE.issue_id i = randomUUID (n0 + k)).
Proof.
  cbv zeta. unfold EE.scanSecurityIssues. cbv zeta. split.
  - apply imap_sorted with (R := fun x y => (findingLine x <= findingLine y)%nat);
      [|apply lineFindings_sorted].
    intros i j [[[ln text] p] m] [[[ln' text'] p'] m'] H. cbn in H |- *. lia.
  - intros k i Hk. rewrite nth_error_lookup in Hk.
    apply list_lookup_imap_Some in Hk.
    destruct Hk as ([[[ln text] p] m] & _ & ->). reflexivity.
Qed.

Lemma security_issues_in_line_order_witness :
  let issues := EE.scanSecurityIssues unaryId 0 "h = md5(x)" "a.ts" in
  exists i, nth_error issues 0 = Some i /\ EE.issue_id i = unaryId 0.
Proof.
  cbv zeta. eexists. split; [vm_compute; reflexivity|].
  refine (proj2 (security_issues_in_line_order unaryId 0 "h = md5(x)" "a.ts") 0 _ _).
  vm_compute. reflexivity.
Defined.


Lemma security_issues_follow_table_witness :
  let i := {| EE.issue_id := unaryId 0; EE.severity := EE.sev_medium;
              EE.issue_type := "Weak Crypto"; EE.issue_file := "a.ts";
              EE.line := 1; EE.column := 4;
              EE.message := "Weak cryptographic algorithm";
              EE.cwe := Some "CWE-327"; EE.owasp := Some "A02:2021";
              EE.fixSuggestion := Some "Use strong algorithms like AES-256, SHA-256" |} in
  In i (EE.scanSecurityIssues unaryId 0 "h = md5(x)" "a.ts") /\
  EE.severity i <> EE.sev_low.
Proof.
  cbv zeta.
  assert (Hin : In {| EE.issue_id := unaryId 0; EE.severity := EE.sev_medium;
                      EE.issue_type := "Weak Crypto"; EE.issue_file := "a.ts";
                      EE.line := 1; EE.column := 4;
                      EE.message := "Weak cryptographic algorithm";
                      EE.cwe := Some "CWE-327"; EE.owasp := Some "A02:2021";
                      EE.fixSuggestion :=
                        Some "Use strong algorithms like AES-256, SHA-256" |}
                   (EE.scanSecurityIssues unaryId 0 "h = md5(x)" "a.ts")).
  { vm_compute. left. reflexivity. }
  split; [exact Hin|].
  exact (proj2 (proj2 (proj2 (security_issues_follow_table _ _ _ _ _ Hin)))).
Defined.

Lemma chars_app (a b : string) : chars (a ++ b) = (chars a ++ chars b)%list.
Proof. induction a as [|c a IH]; simpl; [reflexivity | f_equal; exact IH]. Qed.

Lemma split_char_from_app (x : ascii) (la lb : list ascii) :
  forall seg : list ascii,
    split_char_from x seg (la ++ x :: lb)
    = (split_char_from x seg la ++ split_char_from x [] lb)%list.
Proof.
  induction la as [|c la IH]; intros seg; simpl.
  - unfold is_char. rewrite Ascii.eqb_refl. reflexivity.
  - destruct (is_char x c); simpl; [f_equal|]; apply IH.
Qed.

Lemma split_char_separate_lines (a b : string) :
  split_char "010" (onSeparateLines a b)
  = (split_char "010" a ++ split_char "010" b)%list.
Proof.
  unfold split_char, onSeparateLines. rewrite chars_app. apply split_char_from_app.
Qed.

Lemma lineFindings_app (l1 l2 : list string) :
  forall n : nat,
    EE.lineFindings n (l1 ++ l2)
    = (EE.lineFindings n l1 ++ EE.lineFindings (n + List.length l1) l2)%list.
Proof.
  induction l1 as [|l l1 IH]; intros n; cbn [EE.lineFindings app List.length].
  - rewrite Nat.add_0_r. reflexivity.
  - rewrite IH, <- app_assoc. do 3 f_equal. lia.
Qed.

Lemma lineFindings_shift (lines : list string) (d : nat) :
  forall n : nat,
    EE.lineFindings (n + d) lines
    = map (fun '(ln, text, p, m) => ((ln + d)%nat, text, p, m)) (EE.lineFindings n lines).
Proof.
  induction lines as [|l lines IH]; intros n; cbn [EE.lineFindings]; [reflexivity|].
  rewrite map_app. f_equal.
  - generalize EE.patterns. intros ps. induction ps as [|p ps IHp]; [reflexivity|].
    cbn [flat_map]. rewrite map_app, IHp. f_equal. rewrite map_map. reflexivity.
  - exact (IH (S n)).
Qed.

(** X26: the scanner works line by line: the issues of two texts put on
    separate lines are the issues of the first text followed by those of
    the second, the latter with the identifiers handed out next and with
    their line numbers moved down by the number of lines of the first
    text.  Hence no issue is ever reported for a construct that spans two
    lines. *)
Theorem security_scan_line_by_line
    (randomUUID : nat -> string) (n0 : nat) (a b filename : string) :
  let first := EE.scanSecurityIssues randomUUID n0 a filename in
  EE.scanSecurityIssues randomUUID n0 (onSeparateLines a b) filename
  = (first ++ map (shiftLine (List.length (split_char "010" a)))
                  (EE.scanSecurityIssues randomUUID (n0 + List.length first) b filename))%list.
Proof.
  cbv zeta. unfold EE.scanSecurityIssues. cbv zeta.
  rewrite split_char_separate_lines, lineFindings_app, imap_app.
  f_equal. rewrite length_imap.
  rewrite (lineFindings_shift (split_char "010" b) (List.length (split_char "010" a)) 0).
  change (map ?f ?l) with (fmap (M:=list) f l).
  rewrite imap_fmap, fmap_imap.
  apply imap_ext. intros k [[[ln text] p] m] _. cbn.
  unfold shiftLine. cbn. f_equal; [f_equal; lia | lia].
Qed.


(** ** Consensus, conflicts and dependencies *)

(** X27: for a graph with at least one node, the consensus level of
    [generateMetrics] is 1 exactly when the graph has a supports edge and
    no rebuts or undermines edge, and 0 exactly when it has a rebuts or
    undermines edge and no supports edge. *)
Theorem consensus_extremes (this : AM.Miner) :
  AM.nodes (AM.graph this) <> [] ->
  let c := AM.consensusLevel (fst (AM.generateMetrics this)) in
  let s := List.length (List.filter is_support (AM.edges (AM.graph this))) in
  let k := List.length (List.filter is_conflict (AM.edges (AM.graph this))) in
  ((c == 1)%Q <-> (0 < s)%nat /\ k = 0%nat) /\
  ((c == 0)%Q <-> s = 0%nat /\ (0 < k)%nat).
Proof.
  intros Hn. cbv zeta. rewrite generateMetrics_consensusLevel. cbv zeta.
  set (s := List.length (List.filter is_support (AM.edges (AM.graph this)))).
  set (k := List.length (List.filter is_conflict (AM.edges (AM.graph this)))).
  destruct (AM.nodes (AM.graph this)) as [|n ns]; [congruence|]. cbn [List.length Nat.eqb].
  destruct (Nat.eqb_spec (s + k) 0) as [Hz|Hnz].
  - split; (split; [intros H; vm_compute in H; discriminate | lia]).
  - unfold Qeq. cbn [Qnum Qden].
    rewrite Z.mul_1_r, Z.mul_1_l, Z.mul_0_l, Pos_of_nat_Z by lia.
    split; split; lia.
Qed.

Lemma consensus_extremes_witness :
  let this := snd (AM.buildArgumentGraph
                     [sampleArgument "a1" "security" approveClaim;
                      sampleArgument "a2" "performance" rejectClaim] AM.newMiner) in
  (AM.consensusLevel (fst (AM.generateMetrics this)) == 0)%Q.
Proof.
  cbv zeta.
  refine (proj2 (proj2 (consensus_extremes _ _)) _).
  - vm_compute. discriminate.
  - vm_compute. split; [reflexivity | lia].
Defined.

(** X28: conflict detection does not depend on the order of the two
    arguments: [areConflicting] gives the same answer both ways round. *)
Theorem areConflicting_symmetric (arg1 arg2 : AM.ToulminArgument) :
  AM.areConflicting arg1 arg2 = AM.areConflicting arg2 arg1.
Proof.
  unfold AM.areConflicting. generalize AM.opposites. intros l.
  induction l as [|[word1 word2] l IH]; [reflexivity|].
  cbn [existsb]. rewrite IH. f_equal.
  destruct (includes (toLowerCase (AM.claim arg1)) word1),
           (includes (toLowerCase (AM.claim arg2)) word2),
           (includes (toLowerCase (AM.claim arg1)) word2),
           (includes (toLowerCase (AM.claim arg2)) word1); reflexivity.
Qed.

(** X29: the dependency metrics count each name of the manifest once: the
    direct count is at most the number of names listed, the transitive
    estimate is three times the direct count, and without a manifest both
    are 0. *)
Theorem dependency_counts (manifest : option (list string)) (paths : list string) :
  let d := EE.analyzeDependencies manifest paths in
  EE.transitive d = (3 * EE.direct d)%nat /\
  (forall names, manifest = Some names ->
     (EE.direct d <= List.length names)%nat /\
     (List.NoDup names -> EE.direct d = List.length names)) /\
  (manifest = None -> EE.direct d = 0%nat /\ EE.transitive d = 0%nat).
Proof.
  cbv zeta. unfold EE.analyzeDependencies. cbn [EE.direct EE.transitive].
  split; [lia|]. split.
  - intros names ->. split.
    + induction names as [|x names IH]; [rewrite list_to_set_nil, size_empty; simpl; lia|].
      rewrite list_to_set_cons. cbn [List.length].
      pose proof (size_union_alt (C:=gset string) {[x]} (list_to_set names)) as Hu.
      pose proof (subseteq_size (C:=gset string) (list_to_set names ∖ {[x]}) (list_to_set names))
        as Hd.
      rewrite Hu, size_singleton. 
      assert ((list_to_set names ∖ {[x]} : gset string) ⊆ list_to_set names) as Hsub.
      { intros y. rewrite elem_of_difference. tauto. }
      specialize (Hd Hsub). lia.
    + intros Hnd. apply NoDup_ListNoDup in Hnd.
      rewrite (size_list_to_set (C:=gset string) names Hnd). reflexivity.
  - intros ->. rewrite size_empty. split; reflexivity.
Qed.

Lemma dependency_counts_witness :
  EE.direct (EE.analyzeDependencies (Some ["express"; "lodash"; "express"]) ["a.ts"])
  <= 3.
Proof.
  exact (proj1 (proj1 (proj2 (dependency_counts (Some ["express"; "lodash"; "express"])
                                ["a.ts"])) _ eq_refl)).
Defined.


(** ** Lines of a diff *)

Lemma chars_str (l : list ascii) : chars (str l) = l.
Proof. apply list_ascii_of_string_of_list_ascii. Qed.

Lemma str_chars (s : string) : str (chars s) = s.
Proof. apply string_of_list_ascii_of_string. Qed.

Lemma split_char_from_single (x : ascii) (s : list ascii) :
  forall seg : list ascii,
    Forall (fun c => is_char x c = false) s ->
    split_char_from x seg s = [str (rev seg ++ s)].
Proof.
  induction s as [|c s IH]; intros seg Hs; simpl.
  - rewrite app_nil_r. reflexivity.
  - inversion Hs as [|? ? Hc Hs']; subst. rewrite Hc, IH by exact Hs'.
    simpl. rewrite <- app_assoc. reflexivity.
Qed.

Lemma split_char_from_pieces (x : ascii) (s : list ascii) :
  forall (seg : list ascii) (piece : string),
    Forall (fun c => is_char x c = false) seg ->
    In piece (split_char_from x seg s) ->
    Forall (fun c => is_char x c = false) (chars piece).
Proof.
  induction s as [|c s IH]; intros seg piece Hseg; simpl.
  - intros [<-|[]]. rewrite chars_str. apply List.Forall_forall. intros a Ha.
    apply in_rev in Ha. exact (proj1 (List.Forall_forall _ _) Hseg a Ha).
  - destruct (is_char x c) eqn:E.
    + intros [<-|H].
      * rewrite chars_str. apply List.Forall_forall. intros a Ha.
        apply in_rev in Ha. exact (proj1 (List.Forall_forall _ _) Hseg a Ha).
      * apply (IH [] piece); [constructor | exact H].
    + apply IH. constructor; assumption.
Qed.

Lemma split_char_join (x : ascii) (l : list string) :
  l <> [] ->
  Forall (fun s => Forall (fun c => is_char x c = false) (chars s)) l ->
  split_char x (join_char x l) = l.
Proof.
  induction l as [|s l IH]; [congruence|]. intros _ Hall.
  inversion Hall as [|? ? Hs Hl]; subst.
  destruct l as [|s' l'].
  - cbn [join_char]. unfold split_char. rewrite split_char_from_single by exact Hs.
    cbn [rev app]. rewrite str_chars. reflexivity.
  - change (join_char x (s :: s' :: l')) with (s ++ String x (join_char x (s' :: l'))).
    unfold split_char. rewrite chars_app. cbn [chars list_ascii_of_string].
    fold (chars (join_char x (s' :: l'))).
    rewrite split_char_from_app, split_char_from_single by exact Hs.
    cbn [rev app]. rewrite str_chars.
    fold (split_char x (join_char x (s' :: l'))).
    rewrite IH; [reflexivity | discriminate | exact Hl].
Qed.

Lemma join_split_char (x : ascii) (s : string) : join_char x (split_char x s) = s.
Proof.
  unfold split_char.
  assert (H : forall l seg,
            join_char x (split_char_from x seg l) = str (rev seg ++ l)).
  { induction l as [|c l IH]; intros seg; simpl.
    - rewrite app_nil_r. reflexivity.
    - destruct (is_char x c) eqn:E.
      + pose proof (split_char_from_length x l []) as Hlen.
        destruct (split_char_from x [] l) as [|p ps] eqn:Es; [simpl in Hlen; lia|].
        change (join_char x (str (rev seg) :: p :: ps))
          with (str (rev seg) ++ String x (join_char x (p :: ps))).
        rewrite <- Es, IH. cbn [rev app].
        apply Ascii.eqb_eq in E. subst c.
        clear. induction (rev seg) as [|a r IHr]; simpl; [reflexivity|].
        rewrite <- IHr. reflexivity.
      + rewrite IH. simpl. rewrite <- app_assoc. reflexivity. }
  rewrite H. cbn [rev app]. apply str_chars.
Qed.

(** X30: [getPRDiff] returns a diff of at most 1000 lines unchanged; it
    cuts a longer one to its first 1000 lines followed by an empty line and
    the truncation marker, 1002 lines in all; when the command fails it
    returns the one-line failure text.  So its result never has more than
    1002 lines. *)
Theorem pr_diff_at_most_1002_lines (ghPrDiff : option string) :
  let d := CB.getPRDiff ghPrDiff in
  (List.length (split_char "010" d) <= 1002)%nat /\
  (forall stdout, ghPrDiff = Some stdout ->
     ((List.length (split_char "010" stdout) <= 1000)%nat -> d = stdout) /\
     ((1000 < List.length (split_char "010" stdout))%nat ->
        split_char "010" d
        = (firstn 1000 (split_char "010" stdout)
           ++ [EmptyString; "... (diff truncated)"])%list)) /\
  (ghPrDiff = None -> d = "Failed to retrieve diff").
Proof.
  cbv zeta.
  assert (Hcut : forall stdout,
            (1000 < List.length (split_char "010" stdout))%nat ->
            split_char "010"
              (join_char "010" (firstn 1000 (split_char "010" stdout))
               ++ String "010" (String "010" "... (diff truncated)"))
            = (firstn 1000 (split_char "010" stdout)
               ++ [EmptyString; "... (diff truncated)"])%list).
  { intros stdout Hlong.
    unfold split_char at 1. rewrite chars_app. cbn [chars list_ascii_of_string].
    rewrite split_char_from_app.
    fold (split_char "010" (join_char "010" (firstn 1000 (split_char "010" stdout)))).
    rewrite split_char_join.
    - f_equal.
    - destruct (split_char "010" stdout); [simpl in Hlong; lia | discriminate].
    - apply List.Forall_forall. intros piece Hp. apply firstn_In in Hp.
      unfold split_char in Hp.
      exact (split_char_from_pieces _ _ _ _ (List.Forall_nil _) Hp). }
  split; [|split].
  - unfold CB.getPRDiff. destruct ghPrDiff as [stdout|]; [|vm_compute; lia].
    cbv zeta. destruct (Nat.ltb_spec 1000 (List.length (split_char "010" stdout))) as [Hl|Hs].
    + rewrite (Hcut stdout Hl), length_app, length_firstn. cbn [List.length]. lia.
    + lia.
  - intros stdout ->. unfold CB.getPRDiff. cbv zeta.
    destruct (Nat.ltb_spec 1000 (List.length (split_char "010" stdout))) as [Hl|Hs].
    + split; [lia | intros _; exact (Hcut stdout Hl)].
    + split; [reflexivity | lia].
  - intros ->. reflexivity.
Qed.

Lemma pr_diff_at_most_1002_lines_witness :
  CB.getPRDiff (Some "diff --git a/x b/x") = "diff --git a/x b/x".
Proof.
  refine (proj1 (proj1 (proj2 (pr_diff_at_most_1002_lines (Some "diff --git a/x b/x")))
                   _ eq_refl) _).
  vm_compute. lia.
Defined.
